(** * u8_encode: the 256-byte record codec of the PIR experiment data

    A shallow embedding of [U8Encoder.py] (module-level functions) and of
    [u8_encode.py] (the static methods of class [U8Encoder]), with the
    properties of the codec proved over it.

    Python integers are [Z]; a list of byte values is a [list Z], as in the
    source, where records are [List[int]]; offsets into a record are [nat].
    A raised exception is a value of [exn], threaded through [result]. *)

From Stdlib Require Import ZArith Lia ZifyBool.
From Equations Require Import Equations.
From coqutil Require Import Z.bitblast.
From stdpp Require Import base list strings gmap.

Local Open Scope Z_scope.

(** ** Exceptions and the error monad *)

(** The exceptions the code can raise, one constructor per raise site of the
    source and one per exception class of the built-ins and of pandas that
    it calls. *)
Inductive exn : Type :=
| ValueError_data_type   (* encode_hint: data type not in type_map *)
| ValueError_data_bits   (* encode_hint: bits outside 0..63 *)
| ValueError_type_code   (* decode_hint: type code not in type_map *)
| ValueError_item_kind   (* encode_item: not an int, float or str *)
| ValueError_item_type   (* decode_item: unknown item type *)
| ValueError_too_long    (* encode_record: more than 256 bytes *)
| ValueError_length      (* decode_record: length is not 256 *)
| ValueError_bytes       (* bytes(): an element outside range(256) *)
| StructError            (* struct.pack / struct.unpack *)
| UnicodeEncodeError     (* str.encode *)
| UnicodeDecodeError     (* bytes.decode *)
| IndexError             (* sequence index out of range *)
| ValueError_columns.    (* pd.DataFrame: rows not as wide as the labels *)

Global Instance exn_eq_dec : EqDecision exn.
Proof. solve_decision. Defined.

Inductive result (A : Type) : Type :=
| Ok (a : A)
| Raise (e : exn).
Arguments Ok {A} a.
Arguments Raise {A} e.

Global Instance result_ret : MRet result := fun _ a => Ok a.

Global Instance result_bind : MBind result := fun _ _ k m =>
  match m with
  | Ok a => k a
  | Raise e => Raise e
  end.

Global Instance result_fmap : FMap result := fun _ _ f m =>
  match m with
  | Ok a => Ok (f a)
  | Raise e => Raise e
  end.

Definition raises {A} (m : result A) : Prop := ∃ e, m = Raise e.

(** ** Python values *)

(** The values a record can hold.  A [float] is represented by the 64 bits of
    its IEEE-754 binary64 pattern, a [str] by its sequence of code points.
    [bool] is a subclass of [int] in Python and [None] stands for any value
    of another type. *)
Inductive pyval : Type :=
| PyInt (z : Z)
| PyFloat (bits : Z)
| PyStr (s : list Z)
| PyBool (b : bool)
| PyNone.

Global Instance pyval_eq_dec : EqDecision pyval.
Proof. solve_decision. Defined.

(** ** HintCodec *)

Module Hint.

Definition type_map : gmap string Z :=
  {[ "int" := 1; "float" := 2; "str" := 3 ]}.

Definition type_map_inv : gmap Z string :=
  {[ 1 := "int"; 2 := "float"; 3 := "str" ]}.

End Hint.

(** [encode_hint] of U8Encoder.py. *)
Definition encode_hint (data_type : string) (data_bits : Z) : result Z :=
  match Hint.type_map !! data_type with
  | None => Raise ValueError_data_type
  | Some t =>
      if negb ((0 <=? data_bits) && (data_bits <=? 63))
      then Raise ValueError_data_bits
      else Ok (Z.lor (Z.shiftl t 6) data_bits)
  end.

(** [decode_hint] of U8Encoder.py. *)
Definition decode_hint (encoded_value : Z) : result (string * Z) :=
  let data_type := Z.land (Z.shiftr encoded_value 6) 0x3 in
  let data_bits := Z.land encoded_value 0x3F in
  match Hint.type_map_inv !! data_type with
  | None => Raise ValueError_type_code
  | Some name => Ok (name, data_bits)
  end.

(** ** The Python built-ins the codec calls *)

Module Py.

(** [bytes(xs)] for a list of integers: every element must be in
    [range(256)]. *)
Definition is_byte (b : Z) : bool := (0 <=? b) && (b <? 256).

Definition bytes (xs : list Z) : result (list Z) :=
  if forallb is_byte xs then Ok xs else Raise ValueError_bytes.

(** Big-endian representation on [n] bytes and its inverse. *)
Fixpoint be_bytes (n : nat) (z : Z) : list Z :=
  match n with
  | O => []
  | S n' => be_bytes n' (Z.shiftr z 8) ++ [Z.land z 0xFF]
  end.

Definition be_value (bs : list Z) : Z :=
  fold_left (fun acc b => Z.lor (Z.shiftl acc 8) b) bs 0.

(** [struct.pack(">Q", z)]: an unsigned 64-bit integer, big-endian;
    [struct.error] outside [0, 2^64). *)
Definition struct_pack_Q (z : Z) : result (list Z) :=
  if (0 <=? z) && (z <? 2 ^ 64) then Ok (be_bytes 8 z) else Raise StructError.

(** [struct.unpack(">Q", bs)[0]]: the buffer must hold exactly 8 bytes. *)
Definition struct_unpack_Q (bs : list Z) : result Z :=
  if (length bs =? 8)%nat then Ok (be_value bs) else Raise StructError.

(** [struct.pack(">d", x)]: the 8 bytes of the binary64 pattern, big-endian.
    Every float has one, so packing a float never fails. *)
Definition struct_pack_d (bits : Z) : list Z := be_bytes 8 bits.

(** [struct.unpack(">d", bs)[0]]. *)
Definition struct_unpack_d (bs : list Z) : result Z :=
  if (length bs =? 8)%nat then Ok (be_value bs) else Raise StructError.

(** [struct.pack(">{n}s", bs)]: [bs] truncated or padded with null bytes to
    [n] bytes; a negative count is a bad format. *)
Definition struct_pack_s (n : Z) (bs : list Z) : result (list Z) :=
  if n <? 0 then Raise StructError
  else Ok (take (Z.to_nat n) (bs ++ replicate (Z.to_nat n) 0)).

(** [struct.unpack(">{n}s", bs)[0]]: the buffer must hold exactly [n]
    bytes. *)
Definition struct_unpack_s (n : Z) (bs : list Z) : result (list Z) :=
  if n <? 0 then Raise StructError
  else if Z.of_nat (length bs) =? n then Ok bs else Raise StructError.

(** UTF-8 of one code point; surrogates have none. *)
Definition utf8_encode_cp (c : Z) : option (list Z) :=
  if c <? 0 then None
  else if c <? 0x80 then Some [c]
  else if c <? 0x800 then
    Some [Z.lor 0xC0 (Z.shiftr c 6); Z.lor 0x80 (Z.land c 0x3F)]
  else if c <? 0x10000 then
    if (0xD800 <=? c) && (c <=? 0xDFFF) then None
    else Some [Z.lor 0xE0 (Z.shiftr c 12);
               Z.lor 0x80 (Z.land (Z.shiftr c 6) 0x3F);
               Z.lor 0x80 (Z.land c 0x3F)]
  else if c <? 0x110000 then
    Some [Z.lor 0xF0 (Z.shiftr c 18);
          Z.lor 0x80 (Z.land (Z.shiftr c 12) 0x3F);
          Z.lor 0x80 (Z.land (Z.shiftr c 6) 0x3F);
          Z.lor 0x80 (Z.land c 0x3F)]
  else None.

(** [s.encode("utf-8")]: [None] stands for [UnicodeEncodeError]. *)
Fixpoint utf8_encode (s : list Z) : option (list Z) :=
  match s with
  | [] => Some []
  | c :: s' =>
      match utf8_encode_cp c, utf8_encode s' with
      | Some bs, Some bs' => Some (bs ++ bs')
      | _, _ => None
      end
  end.

Definition str_encode (s : list Z) : result (list Z) :=
  match utf8_encode s with
  | Some bs => Ok bs
  | None => Raise UnicodeEncodeError
  end.

Definition in_range (lo hi b : Z) : bool := (lo <=? b) && (b <=? hi).

(** A continuation byte, 10xxxxxx. *)
Definition is_cont (b : Z) : bool := in_range 0x80 0xBF b.

(** The range allowed for the second byte after lead byte [b0]: it excludes
    overlong forms, surrogates and code points above U+10FFFF. *)
Definition second_lo (b0 : Z) : Z :=
  if b0 =? 0xE0 then 0xA0 else if b0 =? 0xF0 then 0x90 else 0x80.

Definition second_hi (b0 : Z) : Z :=
  if b0 =? 0xED then 0x9F else if b0 =? 0xF4 then 0x8F else 0xBF.

Definition payload (b : Z) : Z := Z.land b 0x3F.

(** [bs.decode("utf-8")], strict: [None] stands for [UnicodeDecodeError]. *)
Fixpoint utf8_decode (bs : list Z) : option (list Z) :=
  match bs with
  | [] => Some []
  | b0 :: t0 =>
      if in_range 0 0x7F b0 then cons b0 <$> utf8_decode t0
      else if in_range 0xC2 0xDF b0 then
        match t0 with
        | b1 :: t1 =>
            if is_cont b1
            then cons (Z.lor (Z.shiftl (Z.land b0 0x1F) 6) (payload b1))
                   <$> utf8_decode t1
            else None
        | _ => None
        end
      else if in_range 0xE0 0xEF b0 then
        match t0 with
        | b1 :: b2 :: t2 =>
            if in_range (second_lo b0) (second_hi b0) b1 && is_cont b2
            then cons (Z.lor (Z.shiftl (Z.land b0 0x0F) 12)
                         (Z.lor (Z.shiftl (payload b1) 6) (payload b2)))
                   <$> utf8_decode t2
            else None
        | _ => None
        end
      else if in_range 0xF0 0xF4 b0 then
        match t0 with
        | b1 :: b2 :: b3 :: t3 =>
            if in_range (second_lo b0) (second_hi b0) b1
               && is_cont b2 && is_cont b3
            then cons (Z.lor (Z.shiftl (Z.land b0 0x07) 18)
                         (Z.lor (Z.shiftl (payload b1) 12)
                            (Z.lor (Z.shiftl (payload b2) 6) (payload b3))))
                   <$> utf8_decode t3
            else None
        | _ => None
        end
      else None
  end.

Definition bytes_decode (bs : list Z) : result (list Z) :=
  match utf8_decode bs with
  | Some s => Ok s
  | None => Raise UnicodeDecodeError
  end.

End Py.

(** ** ValueCodec (U8Encoder.py) *)

(** [encode_item]: the [isinstance] chain; a [bool] is an [int]. *)
Definition encode_item (item : pyval) : result (list Z) :=
  match item with
  | PyInt z =>
      h ← encode_hint "int" 8;
      p ← Py.struct_pack_Q z;
      Ok ([h] ++ p)
  | PyBool b =>
      h ← encode_hint "int" 8;
      p ← Py.struct_pack_Q (if b then 1 else 0);
      Ok ([h] ++ p)
  | PyFloat bits =>
      h ← encode_hint "float" 8;
      Ok ([h] ++ Py.struct_pack_d bits)
  | PyStr s =>
      encoded_bytes ← Py.str_encode s;
      h ← encode_hint "str" (Z.of_nat (length encoded_bytes));
      p ← Py.struct_pack_s (Z.of_nat (length encoded_bytes)) encoded_bytes;
      Ok ([h] ++ p)
  | PyNone => Raise ValueError_item_kind
  end.

(** [decode_item]. *)
Definition decode_item (item_type : string) (item_len : Z)
    (encoded_item : list Z) : result pyval :=
  if bool_decide (item_type = "int") then
    bs ← Py.bytes encoded_item;
    PyInt <$> Py.struct_unpack_Q bs
  else if bool_decide (item_type = "float") then
    bs ← Py.bytes encoded_item;
    PyFloat <$> Py.struct_unpack_d bs
  else if bool_decide (item_type = "str") then
    bs ← Py.bytes encoded_item;
    raw ← Py.struct_unpack_s item_len bs;
    PyStr <$> Py.bytes_decode raw
  else Raise ValueError_item_type.

(** ** RecordCodec (U8Encoder.py) *)

(** The [for] loop of [encode_record]: [encoded_items.extend(...)] for each
    item, stopping at the first item that raises. *)
Fixpoint encode_items (record : list pyval) (encoded_items : list Z)
    : result (list Z) :=
  match record with
  | [] => Ok encoded_items
  | item :: rest =>
      bs ← encode_item item;
      encode_items rest (encoded_items ++ bs)
  end.

(** [encode_record]. *)
Definition encode_record (record : list pyval) : result (list Z) :=
  encoded_items ← encode_items record [];
  if (256 <? length encoded_items)%nat then Raise ValueError_too_long
  else Ok (encoded_items ++ replicate (256 - length encoded_items) 0).

(** The slice [xs[a:b]] for non-negative [a] and [b]: it is clipped to the
    list, never an error. *)
Definition slice (xs : list Z) (a b : nat) : list Z := take (b - a) (drop a xs).

(** One pass through the body of the [while] loop of [decode_record], at
    offset [i]: either [break], or one item decoded from [item_len] payload
    bytes.  [item_len] is [hint & 0x3F], which is never negative
    ([decode_hint_len] below), so it is carried as a [nat] from here on. *)
Inductive step : Type :=
| Break
| Next (item_len : nat) (decoded_item : pyval).

Definition loop_body (encoded_record : list Z) (i : nat) : result step :=
  match encoded_record !! i with
  | None => Raise IndexError
  | Some b =>
      if b =? 0 then Ok Break
      else
        '(item_type, item_len) ← decode_hint b;
        let n := Z.to_nat item_len in
        decoded_item ←
          decode_item item_type item_len (slice encoded_record (i + 1) (i + 1 + n));
        Ok (Next n decoded_item)
  end.

(** The [while i < 256] loop, from the state [(decoded_items, i)] to the
    state in which the loop is left. *)
Equations? decode_loop (encoded_record : list Z) (i : nat)
    (decoded_items : list pyval) : result (list pyval * nat)
    by wf (256 - i)%nat lt :=
  decode_loop encoded_record i decoded_items with lt_dec i 256 := {
    | right _ => Ok (decoded_items, i)
    | left _ with loop_body encoded_record i := {
        | Raise e => Raise e
        | Ok Break => Ok (decoded_items, i)
        | Ok (Next item_len decoded_item) =>
            decode_loop encoded_record (i + item_len + 1)
              (decoded_items ++ [decoded_item]) } }.
Proof. lia. Qed.

(** [decode_record]. *)
Definition decode_record (encoded_record : list Z) : result (list pyval) :=
  if negb (length encoded_record =? 256)%nat then Raise ValueError_length
  else fst <$> decode_loop encoded_record 0 [].

(** ** Tables *)

(** pandas is outside the codec, and nothing is assumed of it.

    A frame that [encode_database] receives is represented by what the
    function reads of it: the list [df.columns.tolist()] returns and the rows
    [df.iterrows()] yields, each as the values that iterating over it gives.
    These are the values after pandas has brought a row to one dtype: in a
    frame of numbers an integer that stands beside a float arrives as a
    float, and that float is what the record holds.  How pandas gets from
    the arguments of [pd.DataFrame] to these values is not modelled. *)
Record DataFrame : Type := observed {
  columns_tolist : list pyval;
  iterrows : list (list pyval)
}.

(** A frame of encoded records is represented by the rows read of it
    ([.tolist()] of each), each a list of integers.  The frame
    [pd.DataFrame(encoded_data)] that [encode_database] builds, out of
    records of 256 byte values each, has these records as its rows. *)
Definition EncodedFrame : Type := list (list Z).

(** [encoded_df.iloc[0].tolist()]. *)
Definition iloc_0 (encoded_df : EncodedFrame) : result (list Z) :=
  match encoded_df with
  | [] => Raise IndexError
  | r :: _ => Ok r
  end.

(** [encoded_df.iloc[1:]]. *)
Definition iloc_1_ (encoded_df : EncodedFrame) : EncodedFrame := drop 1 encoded_df.

(** [pd.DataFrame(data, columns=columns)] on decoded rows, [None] for a call
    without [columns]: a parameter.  It returns a frame, of a type [Frame] of
    which nothing is known, or raises; pandas raises a [ValueError] when the
    rows do not have the width of the labels. *)
Class DataFrameConstructor (Frame : Type) :=
  pd_DataFrame : list (list pyval) → option (list pyval) → result Frame.

(** [encode_database] of U8Encoder.py. *)
Definition encode_database (df : DataFrame) : result EncodedFrame :=
  header_record ← encode_record (columns_tolist df);
  data_records ← mapM encode_record (iterrows df);
  let encoded_data := [header_record] ++ data_records in
  Ok encoded_data.

(** [decode_database] of U8Encoder.py: it returns what the constructor
    returns and raises what it raises. *)
Definition decode_database {Frame} {C : DataFrameConstructor Frame}
    (encoded_df : EncodedFrame) : result Frame :=
  header_encoded ← iloc_0 encoded_df;
  header ← decode_record header_encoded;
  let data_encoded := iloc_1_ encoded_df in
  data_records ← mapM decode_record data_encoded;
  pd_DataFrame data_records (Some header).

(** ** The class [U8Encoder] of u8_encode.py *)

Module U8Encoder.

Definition _encode_hint (data_type : string) (data_bits : Z) : result Z :=
  match Hint.type_map !! data_type with
  | None => Raise ValueError_data_type
  | Some t =>
      if negb ((0 <=? data_bits) && (data_bits <=? 63))
      then Raise ValueError_data_bits
      else Ok (Z.lor (Z.shiftl t 6) data_bits)
  end.

Definition _decode_hint (encoded_value : Z) : result (string * Z) :=
  let data_type := Z.land (Z.shiftr encoded_value 6) 0x3 in
  let data_bits := Z.land encoded_value 0x3F in
  match Hint.type_map_inv !! data_type with
  | None => Raise ValueError_type_code
  | Some name => Ok (name, data_bits)
  end.

Definition _encode_item (item : pyval) : result (list Z) :=
  match item with
  | PyInt z =>
      h ← _encode_hint "int" 8;
      p ← Py.struct_pack_Q z;
      Ok ([h] ++ p)
  | PyBool b =>
      h ← _encode_hint "int" 8;
      p ← Py.struct_pack_Q (if b then 1 else 0);
      Ok ([h] ++ p)
  | PyFloat bits =>
      h ← _encode_hint "float" 8;
      Ok ([h] ++ Py.struct_pack_d bits)
  | PyStr s =>
      encoded_bytes ← Py.str_encode s;
      h ← _encode_hint "str" (Z.of_nat (length encoded_bytes));
      p ← Py.struct_pack_s (Z.of_nat (length encoded_bytes)) encoded_bytes;
      Ok ([h] ++ p)
  | PyNone => Raise ValueError_item_kind
  end.

Definition _decode_item (item_type : string) (item_len : Z)
    (encoded_item : list Z) : result pyval :=
  if bool_decide (item_type = "int") then
    bs ← Py.bytes encoded_item;
    PyInt <$> Py.struct_unpack_Q bs
  else if bool_decide (item_type = "float") then
    bs ← Py.bytes encoded_item;
    PyFloat <$> Py.struct_unpack_d bs
  else if bool_decide (item_type = "str") then
    bs ← Py.bytes encoded_item;
    raw ← Py.struct_unpack_s item_len bs;
    PyStr <$> Py.bytes_decode raw
  else Raise ValueError_item_type.

Fixpoint encode_items (record : list pyval) (encoded_items : list Z)
    : result (list Z) :=
  match record with
  | [] => Ok encoded_items
  | item :: rest =>
      bs ← _encode_item item;
      encode_items rest (encoded_items ++ bs)
  end.

Definition encode_record (record : list pyval) : result (list Z) :=
  encoded_items ← encode_items record [];
  if (256 <? length encoded_items)%nat then Raise ValueError_too_long
  else Ok (encoded_items ++ replicate (256 - length encoded_items) 0).

Definition loop_body (encoded_record : list Z) (i : nat) : result step :=
  match encoded_record !! i with
  | None => Raise IndexError
  | Some b =>
      if b =? 0 then Ok Break
      else
        '(item_type, item_len) ← _decode_hint b;
        let n := Z.to_nat item_len in
        decoded_item ←
          _decode_item item_type item_len (slice encoded_record (i + 1) (i + 1 + n));
        Ok (Next n decoded_item)
  end.

Equations? decode_while (encoded_record : list Z) (i : nat)
    (decoded_items : list pyval) : result (list pyval * nat)
    by wf (256 - i)%nat lt :=
  decode_while encoded_record i decoded_items with lt_dec i 256 := {
    | right _ => Ok (decoded_items, i)
    | left _ with loop_body encoded_record i := {
        | Raise e => Raise e
        | Ok Break => Ok (decoded_items, i)
        | Ok (Next item_len decoded_item) =>
            decode_while encoded_record (i + item_len + 1)
              (decoded_items ++ [decoded_item]) } }.
Proof. lia. Qed.

Definition decode_record (encoded_record : list Z) : result (list pyval) :=
  if negb (length encoded_record =? 256)%nat then Raise ValueError_length
  else fst <$> decode_while encoded_record 0 [].

(** [encode_database] of u8_encode.py: the rows only. *)
Definition encode_database (df : DataFrame) : result EncodedFrame :=
  mapM encode_record (iterrows df).

(** [decode_database] of u8_encode.py: every record is a row, and the
    constructor is called without [columns]. *)
Definition decode_database {Frame} {C : DataFrameConstructor Frame}
    (encoded_df : EncodedFrame) : result Frame :=
  decoded ← mapM decode_record encoded_df;
  pd_DataFrame decoded None.

End U8Encoder.

(** ** Row predicates used by the statements *)

(** The number of bytes [encode_item] produces for a value: the hint byte and
    the payload. *)
Definition encoded_size (v : pyval) : nat :=
  match v with
  | PyInt _ | PyBool _ | PyFloat _ => 9%nat
  | PyStr s => (1 + from_option length 0 (Py.utf8_encode s))%nat
  | PyNone => 0%nat
  end.

Definition row_size (record : list pyval) : nat :=
  sum_list (encoded_size <$> record).

(** The supported values: an integer in [0, 2^64), a float (a binary64
    pattern), a string with a UTF-8 encoding of at most 63 bytes. *)
Definition supported (v : pyval) : bool :=
  match v with
  | PyInt z => (0 <=? z) && (z <? 2 ^ 64)
  | PyFloat bits => (0 <=? bits) && (bits <? 2 ^ 64)
  | PyStr s =>
      match Py.utf8_encode s with
      | Some bs => (length bs <=? 63)%nat
      | None => false
      end
  | PyBool _ | PyNone => false
  end.

(** The offset of the first zero byte of a buffer, wherever it stands. *)
Definition first_zero (r : list Z) : option nat :=
  fst <$> list_find (λ x, x = 0) r.

(** What a value reads back as: a [bool] is packed as the integer 0 or 1,
    and an integer is what comes back. *)
Definition canonical (v : pyval) : pyval :=
  match v with
  | PyBool b => PyInt (if b then 1 else 0)
  | _ => v
  end.

(** A [PyFloat] stands for a Python float when its pattern has 64 bits; the
    other values need no side condition. *)
Definition well_formed (v : pyval) : bool :=
  match v with
  | PyFloat bits => (0 <=? bits) && (bits <? 2 ^ 64)
  | _ => true
  end.

(** Encode, then decode what was encoded. *)
Definition round_trip (record : list pyval) : result (list pyval) :=
  r ← encode_record record; decode_record r.

Definition class_round_trip (record : list pyval) : result (list pyval) :=
  r ← U8Encoder.encode_record record; U8Encoder.decode_record r.

(** Proof steps shared below: goals on quotients and remainders, and the
    byte-range tests of the UTF-8 decoder. *)
Ltac divmod := Z.to_euclidean_division_equations; lia.

Ltac range_test :=
  unfold Py.is_cont, Py.in_range, Py.second_lo, Py.second_hi;
  repeat case_match; divmod.

(** * Properties *)

(** ** Tests of the repository, evaluated *)

Example encode_hint_int_8 : encode_hint "int" 8 = Ok 72.
Proof. vm_compute. reflexivity. Qed.

Example decode_hint_72 : decode_hint 72 = Ok ("int"%string, 8).
Proof. vm_compute. reflexivity. Qed.

Example decode_hint_0 : decode_hint 0 = Raise ValueError_type_code.
Proof. vm_compute. reflexivity. Qed.

(** "he啊llo😀99" of the tests, as code points. *)
Example utf8_encode_test_string :
  Py.utf8_encode [104; 101; 0x554A; 108; 108; 111; 0x1F600; 57; 57]
  = Some [104; 101; 0xE5; 0x95; 0x8A; 108; 108; 111; 0xF0; 0x9F; 0x98; 0x80; 57; 57].
Proof. vm_compute. reflexivity. Qed.

Example utf8_decode_test_string :
  Py.utf8_decode [104; 101; 0xE5; 0x95; 0x8A; 108; 108; 111; 0xF0; 0x9F; 0x98; 0x80; 57; 57]
  = Some [104; 101; 0x554A; 108; 108; 111; 0x1F600; 57; 57].
Proof. vm_compute. reflexivity. Qed.

Example encode_item_42 : encode_item (PyInt 42) = Ok [72; 0; 0; 0; 0; 0; 0; 0; 42].
Proof. vm_compute. reflexivity. Qed.

(** [42, 3.14, "hi"]; 3.14 is the pattern 0x40091EB851EB851F. *)
Example round_trip_example :
  round_trip [PyInt 42; PyFloat 0x40091EB851EB851F; PyStr [104; 105]]
  = Ok [PyInt 42; PyFloat 0x40091EB851EB851F; PyStr [104; 105]].
Proof. vm_compute. reflexivity. Qed.

Example encode_item_None : encode_item PyNone = Raise ValueError_item_kind.
Proof. reflexivity. Qed.

Example decode_item_invalid :
  decode_item "invalid" 8 (replicate 8 0) = Raise ValueError_item_type.
Proof. vm_compute. reflexivity. Qed.

Example decode_record_255 : decode_record (replicate 255 0) = Raise ValueError_length.
Proof. vm_compute. reflexivity. Qed.

(** The frame [pd.DataFrame([[1, 2.5]])]: its labels read [0, 1] and its row
    reads [1.0, 2.5], the integer having become a float beside the float;
    the record of the row holds two floats, each under the hint byte 136. *)
Example encode_database_upcast_row :
  encode_database
    (observed [PyInt 0; PyInt 1]
       [[PyFloat 0x3FF0000000000000; PyFloat 0x4004000000000000]])
  = Ok [[72; 0; 0; 0; 0; 0; 0; 0; 0; 72; 0; 0; 0; 0; 0; 0; 0; 1] ++ replicate 238 0;
        [136; 0x3F; 0xF0; 0; 0; 0; 0; 0; 0; 136; 0x40; 0x04; 0; 0; 0; 0; 0; 0]
          ++ replicate 238 0].
Proof. vm_compute. reflexivity. Qed.

(** A record that is not the encoding of a row: at offset 247 the hint byte
    84 announces an integer of 20 bytes, of which the record holds 8.  The
    slice is clipped to them, the integer decodes, and the loop is left at
    offset 268. *)
Example decode_loop_past_the_end :
  decode_loop (mjoin (replicate 27 [72; 0; 0; 0; 0; 0; 0; 0; 1])
               ++ [195; 97; 98; 99] ++ [84; 0; 0; 0; 0; 0; 0; 0; 5]) 0 []
  = Ok (replicate 27 (PyInt 1) ++ [PyStr [97; 98; 99]; PyInt 5], 268%nat).
Proof. vm_compute. reflexivity. Qed.

(** ** The two copies, function by function *)

Lemma class_encode_hint : U8Encoder._encode_hint = encode_hint.
Proof. reflexivity. Qed.

Lemma class_decode_hint : U8Encoder._decode_hint = decode_hint.
Proof. reflexivity. Qed.

Lemma class_encode_item : U8Encoder._encode_item = encode_item.
Proof. reflexivity. Qed.

Lemma class_decode_item : U8Encoder._decode_item = decode_item.
Proof. reflexivity. Qed.

Lemma class_encode_items : U8Encoder.encode_items = encode_items.
Proof. reflexivity. Qed.

Lemma class_encode_record : U8Encoder.encode_record = encode_record.
Proof. reflexivity. Qed.

Lemma class_loop_body : U8Encoder.loop_body = loop_body.
Proof. reflexivity. Qed.

Lemma decode_loop_eq r i acc :
  decode_loop r i acc =
    if decide (i < 256)%nat then
      match loop_body r i with
      | Raise e => Raise e
      | Ok Break => Ok (acc, i)
      | Ok (Next n v) => decode_loop r (i + n + 1) (acc ++ [v])
      end
    else Ok (acc, i).
Proof.
  rewrite decode_loop_equation_1.
  destruct (lt_dec i 256); case_decide; try lia; [|done]. cbn.
  destruct (loop_body r i) as [[|n v]|e]; done.
Qed.

Lemma class_decode_loop_eq r i acc :
  U8Encoder.decode_while r i acc =
    if decide (i < 256)%nat then
      match loop_body r i with
      | Raise e => Raise e
      | Ok Break => Ok (acc, i)
      | Ok (Next n v) => U8Encoder.decode_while r (i + n + 1) (acc ++ [v])
      end
    else Ok (acc, i).
Proof.
  rewrite U8Encoder.decode_while_equation_1.
  destruct (lt_dec i 256); case_decide; try lia; [|done]. cbn.
  rewrite class_loop_body.
  destruct (loop_body r i) as [[|n v]|e]; done.
Qed.

Lemma class_decode_loop r i acc :
  U8Encoder.decode_while r i acc = decode_loop r i acc.
Proof.
  remember (256 - i)%nat as m eqn:Hm.
  revert i acc Hm. induction (lt_wf m) as [m _ IH]. intros i acc ->.
  rewrite class_decode_loop_eq, decode_loop_eq.
  case_decide; [|done].
  destruct (loop_body r i) as [[|n v]|e]; try done.
  eapply IH; [|done]. lia.
Qed.

Lemma class_decode_record r : U8Encoder.decode_record r = decode_record r.
Proof.
  unfold U8Encoder.decode_record, decode_record.
  by rewrite class_decode_loop.
Qed.

(** ** Bit arithmetic *)

Lemma lor_shiftl_add hi lo n :
  0 ≤ n → 0 ≤ lo < 2 ^ n → Z.lor (Z.shiftl hi n) lo = hi * 2 ^ n + lo.
Proof.
  intros Hn Hlo. rewrite <- Z.shiftl_mul_pow2 by done.
  apply Z.or_to_plus. apply Z.bits_inj'. intros k Hk.
  rewrite Z.land_spec, Z.bits_0.
  destruct (decide (k < n)) as [Hlt|Hge].
  - by rewrite Z.shiftl_spec_low.
  - destruct (decide (lo = 0)) as [->|Hne];
      [by rewrite Z.bits_0, andb_false_r|].
    rewrite (Z.bits_above_log2 lo k); [apply andb_false_r|lia|].
    apply Z.log2_lt_pow2; [lia|].
    apply Z.lt_le_trans with (2 ^ n); [lia|].
    apply Z.pow_le_mono_r; lia.
Qed.

Lemma lor_const_add hi lo n c :
  c = hi * 2 ^ n → 0 ≤ n → 0 ≤ lo < 2 ^ n → Z.lor c lo = c + lo.
Proof.
  intros -> Hn Hlo. rewrite <- lor_shiftl_add by done.
  by rewrite Z.shiftl_mul_pow2.
Qed.

Lemma land_mod z n : 0 ≤ n → Z.land z (2 ^ n - 1) = z mod 2 ^ n.
Proof. intros. rewrite <- Z.land_ones by done. by rewrite Z.ones_equiv, <- Z.sub_1_r. Qed.

(** ** HintCodec *)

Lemma type_map_lookup (s : string) :
  Hint.type_map !! s =
    if decide (s = "int"%string) then Some 1
    else if decide (s = "float"%string) then Some 2
    else if decide (s = "str"%string) then Some 3
    else None.
Proof.
  unfold Hint.type_map.
  rewrite !lookup_insert, lookup_singleton.
  repeat case_decide; subst; done.
Qed.

Lemma type_map_inv_lookup (t : Z) :
  Hint.type_map_inv !! t =
    if decide (t = 1) then Some "int"%string
    else if decide (t = 2) then Some "float"%string
    else if decide (t = 3) then Some "str"%string
    else None.
Proof.
  unfold Hint.type_map_inv.
  rewrite !lookup_insert, lookup_singleton.
  repeat case_decide; subst; done.
Qed.

(** The tag index of a recognised type name. *)
Lemma type_map_Some s t :
  Hint.type_map !! s = Some t ↔
  (s, t) ∈ [("int"%string, 1); ("float"%string, 2); ("str"%string, 3)].
Proof.
  rewrite type_map_lookup. rewrite !elem_of_cons, elem_of_nil.
  repeat case_decide; subst; intuition congruence.
Qed.

Lemma type_map_None s :
  Hint.type_map !! s = None ↔ s ∉ ["int"%string; "float"%string; "str"%string].
Proof.
  rewrite type_map_lookup. rewrite !not_elem_of_cons.
  pose proof (not_elem_of_nil s).
  repeat case_decide; subst; intuition congruence.
Qed.

Lemma hint_split t len :
  0 ≤ len ≤ 63 →
  Z.lor (Z.shiftl t 6) len = t * 64 + len.
Proof. intros. by rewrite lor_shiftl_add by lia. Qed.

Lemma encode_hint_Ok data_type data_bits h :
  encode_hint data_type data_bits = Ok h ↔
  ∃ t, Hint.type_map !! data_type = Some t ∧ 0 ≤ data_bits ≤ 63
       ∧ h = Z.lor (Z.shiftl t 6) data_bits.
Proof.
  unfold encode_hint. destruct (Hint.type_map !! data_type) as [t|].
  - destruct (0 <=? data_bits) eqn:H0; destruct (data_bits <=? 63) eqn:H1; simpl;
      split; try (intros (t' & ? & ? & ?)); try intros ?; simplify_eq; try lia;
      try done.
    exists t. repeat split; lia.
  - split; [done|]. by intros (? & ? & _).
Qed.

Lemma decode_hint_tag t len :
  t ∈ [1; 2; 3] → 0 ≤ len ≤ 63 →
  Z.land (Z.shiftr (t * 64 + len) 6) 3 = t ∧ Z.land (t * 64 + len) 0x3F = len.
Proof.
  intros Ht Hlen.
  rewrite Z.shiftr_div_pow2 by lia.
  change 3 with (2 ^ 2 - 1) at 1. change 0x3F with (2 ^ 6 - 1).
  rewrite !land_mod by lia. change (2 ^ 6) with 64. change (2 ^ 2) with 4.
  rewrite !elem_of_cons, elem_of_nil in Ht.
  assert ((t * 64 + len) `div` 64 = t) as ->
    by (symmetry; apply Z.div_unique with len; lia).
  split.
  - apply Z.mod_small. lia.
  - rewrite Z.add_comm, Z.mod_add by lia. apply Z.mod_small. lia.
Qed.

Lemma decode_hint_encoded data_type t len :
  Hint.type_map !! data_type = Some t → 0 ≤ len ≤ 63 →
  decode_hint (Z.lor (Z.shiftl t 6) len) = Ok (data_type, len).
Proof.
  intros Ht Hlen. rewrite hint_split by done.
  assert (t ∈ [1; 2; 3]) as Hin.
  { apply type_map_Some in Ht. rewrite !elem_of_cons, elem_of_nil in Ht.
    rewrite !elem_of_cons. destruct Ht as [?|[?|[?|[]]]]; simplify_eq; auto. }
  destruct (decode_hint_tag t len Hin Hlen) as [Htag Hbits].
  unfold decode_hint. rewrite Htag, Hbits, type_map_inv_lookup.
  rewrite type_map_lookup in Ht.
  repeat case_decide; simplify_eq; done.
Qed.

Lemma decode_hint_sentinel b :
  Z.land (Z.shiftr b 6) 0x3 = 0 → decode_hint b = Raise ValueError_type_code.
Proof. intros H. unfold decode_hint. by rewrite H. Qed.

(** C4. For the three type names, with tag index 1, 2 and 3, and a length in
    0..63, [encode_hint] returns [(tag_index << 6) | length] and
    [decode_hint] of that byte gives the name and the length back;
    [encode_hint("int", 8)] is 72 and [decode_hint(72)] is [("int", 8)];
    [encode_hint] raises for another type name or a length outside 0..63,
    and [decode_hint] raises when the extracted tag index is 0.  The same
    holds of the methods of the class. *)
Theorem hint_codec_correct :
  (∀ data_type tag_index len,
     (data_type, tag_index) ∈ [("int"%string, 1); ("float"%string, 2); ("str"%string, 3)] →
     0 ≤ len ≤ 63 →
     let byte := Z.lor (Z.shiftl tag_index 6) len in
     encode_hint data_type len = Ok byte
     ∧ decode_hint byte = Ok (data_type, len)
     ∧ U8Encoder._encode_hint data_type len = Ok byte
     ∧ U8Encoder._decode_hint byte = Ok (data_type, len))
  ∧ (encode_hint "int" 8 = Ok 72 ∧ decode_hint 72 = Ok ("int"%string, 8))
  ∧ (∀ data_type len,
       data_type ∉ ["int"%string; "float"%string; "str"%string] →
       encode_hint data_type len = Raise ValueError_data_type
       ∧ U8Encoder._encode_hint data_type len = Raise ValueError_data_type)
  ∧ (∀ data_type len,
       data_type ∈ ["int"%string; "float"%string; "str"%string] →
       ¬ (0 ≤ len ≤ 63) →
       encode_hint data_type len = Raise ValueError_data_bits
       ∧ U8Encoder._encode_hint data_type len = Raise ValueError_data_bits)
  ∧ (∀ byte,
       Z.land (Z.shiftr byte 6) 0x3 = 0 →
       decode_hint byte = Raise ValueError_type_code
       ∧ U8Encoder._decode_hint byte = Raise ValueError_type_code).
Proof.
  rewrite class_encode_hint, class_decode_hint.
  split; [|split; [|split; [|split]]].
  - intros data_type t len Hin Hlen byte. apply type_map_Some in Hin.
    assert (encode_hint data_type len = Ok byte) as Henc.
    { apply encode_hint_Ok. by exists t. }
    pose proof (decode_hint_encoded _ _ _ Hin Hlen) as Hdec.
    done.
  - split; vm_compute; reflexivity.
  - intros data_type len Hnot. apply type_map_None in Hnot.
    unfold encode_hint. by rewrite Hnot.
  - intros data_type len Hin Hlen.
    assert (is_Some (Hint.type_map !! data_type)) as [t Ht].
    { destruct (Hint.type_map !! data_type) eqn:E; [by eexists|].
      by apply type_map_None in E. }
    unfold encode_hint. rewrite Ht.
    destruct (0 <=? len) eqn:H0; destruct (len <=? 63) eqn:H1; simpl; try done.
    lia.
  - intros byte Hz. by rewrite decode_hint_sentinel.
Qed.

Lemma hint_codec_correct_witness :
  (encode_hint "str" 63 = Ok 255 ∧ decode_hint 255 = Ok ("str"%string, 63))
  ∧ encode_hint "bytes" 8 = Raise ValueError_data_type
  ∧ encode_hint "int" 64 = Raise ValueError_data_bits
  ∧ decode_hint 63 = Raise ValueError_type_code.
Proof.
  destruct hint_codec_correct as (Hrt & _ & Htype & Hbits & Hzero).
  split; [|split; [|split]].
  - assert (("str"%string, 3) ∈ [("int"%string, 1); ("float"%string, 2); ("str"%string, 3)])
      as Hin by (do 2 right; left).
    destruct (Hrt "str"%string 3 63 Hin ltac:(lia)) as (He & Hd & _).
    split; [exact He|exact Hd].
  - apply (Htype "bytes"%string 8).
    rewrite !not_elem_of_cons. repeat split; try discriminate. apply not_elem_of_nil.
  - apply (Hbits "int"%string 64); [left|lia].
  - apply (Hzero 63). reflexivity.
Defined.

(** C7. Every byte a successful [encode_hint] returns is at least 64, so the
    first byte of every successful [encode_item] is not 0; the empty string
    encodes to the single byte 192, which is not the sentinel 0. *)
Theorem sentinel_safety :
  (∀ data_type data_bits h,
     encode_hint data_type data_bits = Ok h ∨
     U8Encoder._encode_hint data_type data_bits = Ok h →
     64 ≤ h ≤ 255)
  ∧ (∀ item bs,
       encode_item item = Ok bs ∨ U8Encoder._encode_item item = Ok bs →
       ∃ h payload, bs = h :: payload ∧ 64 ≤ h ∧ h ≠ 0)
  ∧ encode_item (PyStr []) = Ok [192]
  ∧ U8Encoder._encode_item (PyStr []) = Ok [192]
  ∧ 192 = Z.lor (Z.shiftl 3 6) 0 ∧ 192 ≠ 0.
Proof.
  rewrite class_encode_hint, class_encode_item.
  assert (∀ data_type data_bits h,
            encode_hint data_type data_bits = Ok h → 64 ≤ h ≤ 255) as Hhint.
  { intros data_type data_bits h (t & Ht & Hb & ->)%encode_hint_Ok.
    rewrite hint_split by done.
    apply type_map_Some in Ht. rewrite !elem_of_cons, elem_of_nil in Ht.
    destruct Ht as [?|[?|[?|[]]]]; simplify_eq; lia. }
  split; [|split; [|split; [|split; [|split]]]]; try done.
  - intros ??? [H|H]; eauto.
  - intros item bs Hor. assert (encode_item item = Ok bs) as H by tauto. clear Hor.
    destruct item as [z|bits|s|b|]; simpl in H; try done.
    + destruct (encode_hint "int" 8) as [h|] eqn:Eh; [|done].
      apply Hhint in Eh. simpl in H.
      destruct (Py.struct_pack_Q z); simplify_eq/=. exists h, a. split; [done|lia].
    + destruct (encode_hint "float" 8) as [h|] eqn:Eh; [|done].
      apply Hhint in Eh. simplify_eq/=. eexists _, _. split; [done|lia].
    + destruct (Py.str_encode s) as [encoded_bytes|]; [|done]. simpl in H.
      destruct (encode_hint "str" _) as [h|] eqn:Eh; [|done].
      apply Hhint in Eh. simpl in H.
      destruct (Py.struct_pack_s _ _); simplify_eq/=. eexists _, _. split; [done|lia].
    + destruct (encode_hint "int" 8) as [h|] eqn:Eh; [|done].
      apply Hhint in Eh. simpl in H.
      destruct (Py.struct_pack_Q _); simplify_eq/=. eexists _, _. split; [done|lia].
Qed.

Lemma sentinel_safety_witness :
  64 ≤ 72 ≤ 255 ∧ ∃ h payload, [72; 0; 0; 0; 0; 0; 0; 0; 42] = h :: payload ∧ 64 ≤ h ∧ h ≠ 0.
Proof.
  destruct sentinel_safety as (Hhint & Hitem & _).
  split.
  - apply (Hhint "int"%string 8 72). left. vm_compute. reflexivity.
  - apply (Hitem (PyInt 42)). left. vm_compute. reflexivity.
Defined.

(** ** ValueCodec: integers *)

Lemma land_255_byte z : 0 ≤ Z.land z 0xFF < 256.
Proof.
  change 0xFF with (2 ^ 8 - 1). rewrite land_mod by lia.
  apply Z.mod_pos_bound. lia.
Qed.

Lemma be_bytes_length n z : length (Py.be_bytes n z) = n.
Proof.
  revert z. induction n as [|n IH]; intros z; simpl; [done|].
  rewrite length_app, IH. simpl. lia.
Qed.

Lemma be_bytes_is_byte n z : forallb Py.is_byte (Py.be_bytes n z) = true.
Proof.
  revert z. induction n as [|n IH]; intros z; simpl; [done|].
  rewrite forallb_app, IH. simpl. unfold Py.is_byte.
  pose proof (land_255_byte z). rewrite andb_true_r.
  apply andb_true_iff. split; [apply Z.leb_le|apply Z.ltb_lt]; lia.
Qed.

Lemma be_value_snoc bs b :
  Py.be_value (bs ++ [b]) = Z.lor (Z.shiftl (Py.be_value bs) 8) b.
Proof. unfold Py.be_value. by rewrite fold_left_app. Qed.

Lemma be_value_be_bytes n z :
  Py.be_value (Py.be_bytes n z) = z mod 2 ^ (8 * Z.of_nat n).
Proof.
  revert z. induction n as [|n IH]; intros z.
  - simpl. by rewrite Z.mod_1_r.
  - cbn [Py.be_bytes]. rewrite be_value_snoc, IH.
    pose proof (land_255_byte z) as Hb.
    rewrite lor_shiftl_add by lia.
    change 0xFF with (2 ^ 8 - 1). rewrite land_mod by lia.
    rewrite Z.shiftr_div_pow2 by lia.
    replace (8 * Z.of_nat (S n)) with (8 + 8 * Z.of_nat n) by lia.
    rewrite Z.pow_add_r by lia.
    rewrite (Z.rem_mul_r z (2 ^ 8) (2 ^ (8 * Z.of_nat n))) by lia.
    lia.
Qed.

Lemma be_value_be_bytes_8 z :
  0 ≤ z < 2 ^ 64 → Py.be_value (Py.be_bytes 8 z) = z.
Proof.
  intros Hz. rewrite be_value_be_bytes. change (8 * Z.of_nat 8) with 64.
  by apply Z.mod_small.
Qed.

(** The eight bytes of [be_bytes 8 z], written out: the most significant
    first. *)
Lemma be_bytes_8_explicit z :
  Py.be_bytes 8 z =
    [(z `div` 2 ^ 56) `mod` 256; (z `div` 2 ^ 48) `mod` 256;
     (z `div` 2 ^ 40) `mod` 256; (z `div` 2 ^ 32) `mod` 256;
     (z `div` 2 ^ 24) `mod` 256; (z `div` 2 ^ 16) `mod` 256;
     (z `div` 2 ^ 8) `mod` 256; z `mod` 256].
Proof.
  cbn [Py.be_bytes app].
  rewrite !Z.shiftr_shiftr by lia. cbn [Z.add Pos.add Pos.succ].
  change 0xFF with (2 ^ 8 - 1). rewrite !land_mod by lia.
  rewrite !Z.shiftr_div_pow2 by lia. reflexivity.
Qed.

Lemma struct_pack_Q_Ok z :
  0 ≤ z < 2 ^ 64 → Py.struct_pack_Q z = Ok (Py.be_bytes 8 z).
Proof.
  intros Hz. unfold Py.struct_pack_Q.
  destruct (0 <=? z) eqn:H0; destruct (z <? 2 ^ 64) eqn:H1; simpl; try done; lia.
Qed.

Lemma struct_pack_Q_Raise z :
  ¬ (0 ≤ z < 2 ^ 64) → Py.struct_pack_Q z = Raise StructError.
Proof.
  intros Hz. unfold Py.struct_pack_Q.
  destruct (0 <=? z) eqn:H0; destruct (z <? 2 ^ 64) eqn:H1; simpl; try done; lia.
Qed.

(** C10. For every integer in [0, 2^64), [encode_item] returns 9 bytes: the
    hint byte 72 and the 8 bytes of the integer, most significant first; for
    a negative integer or one of at least 2^64 it raises [struct.error]
    (from [struct.pack(">Q", ...)]), which is none of the [ValueError]s the
    codec raises itself. *)
Theorem encode_item_int_range :
  (∀ z, 0 ≤ z < 2 ^ 64 →
     ∃ payload,
       encode_item (PyInt z) = Ok (72 :: payload)
       ∧ U8Encoder._encode_item (PyInt z) = Ok (72 :: payload)
       ∧ length (72 :: payload) = 9%nat
       ∧ payload =
           [(z `div` 2 ^ 56) `mod` 256; (z `div` 2 ^ 48) `mod` 256;
            (z `div` 2 ^ 40) `mod` 256; (z `div` 2 ^ 32) `mod` 256;
            (z `div` 2 ^ 24) `mod` 256; (z `div` 2 ^ 16) `mod` 256;
            (z `div` 2 ^ 8) `mod` 256; z `mod` 256]
       ∧ Py.be_value payload = z)
  ∧ (∀ z, z < 0 ∨ 2 ^ 64 ≤ z →
       encode_item (PyInt z) = Raise StructError
       ∧ U8Encoder._encode_item (PyInt z) = Raise StructError).
Proof.
  rewrite class_encode_item. split.
  - intros z Hz. exists (Py.be_bytes 8 z).
    assert (encode_item (PyInt z) = Ok (72 :: Py.be_bytes 8 z)) as He.
    { cbn [encode_item]. rewrite struct_pack_Q_Ok by done. reflexivity. }
    split_and!; [done|done| |apply be_bytes_8_explicit|by apply be_value_be_bytes_8].
    cbn [length]. by rewrite be_bytes_length.
  - intros z Hz.
    assert (encode_item (PyInt z) = Raise StructError); [|done].
    cbn [encode_item]. rewrite struct_pack_Q_Raise by lia. reflexivity.
Qed.

Lemma encode_item_int_range_witness :
  (∃ payload, encode_item (PyInt (2 ^ 64 - 1)) = Ok (72 :: payload)
              ∧ length (72 :: payload) = 9%nat)
  ∧ encode_item (PyInt (-1)) = Raise StructError
  ∧ encode_item (PyInt (2 ^ 64)) = Raise StructError.
Proof.
  destruct encode_item_int_range as [Hin Hout].
  split; [|split].
  - destruct (Hin (2 ^ 64 - 1) ltac:(lia)) as (payload & He & _ & Hl & _).
    exists payload. split; [exact He|exact Hl].
  - apply (Hout (-1)). left. lia.
  - apply (Hout (2 ^ 64)). right. lia.
Defined.

(** ** ValueCodec: strings *)

Lemma struct_pack_s_exact bs :
  Py.struct_pack_s (Z.of_nat (length bs)) bs = Ok bs.
Proof.
  unfold Py.struct_pack_s.
  destruct (Z.of_nat (length bs) <? 0) eqn:E; [exfalso; lia|].
  by rewrite Nat2Z.id, take_app_length.
Qed.

Lemma str_encode_Some s bs : Py.utf8_encode s = Some bs → Py.str_encode s = Ok bs.
Proof. intros H. unfold Py.str_encode. by rewrite H. Qed.

Lemma encode_hint_str (n : nat) :
  (n ≤ 63)%nat → encode_hint "str" (Z.of_nat n) = Ok (192 + Z.of_nat n).
Proof.
  intros Hn. apply encode_hint_Ok. exists 3. split_and!; [done|lia|lia|].
  rewrite hint_split by lia. lia.
Qed.

Lemma encode_item_str s bs :
  Py.utf8_encode s = Some bs → (length bs ≤ 63)%nat →
  encode_item (PyStr s) = Ok ((192 + Z.of_nat (length bs)) :: bs).
Proof.
  intros Hs Hlen. cbn [encode_item].
  rewrite (str_encode_Some _ _ Hs). cbn [mbind result_bind].
  rewrite encode_hint_str by done. cbn [mbind result_bind].
  by rewrite struct_pack_s_exact.
Qed.

Lemma encode_item_str_long s bs :
  Py.utf8_encode s = Some bs → (63 < length bs)%nat →
  encode_item (PyStr s) = Raise ValueError_data_bits.
Proof.
  intros Hs Hlen. cbn [encode_item].
  rewrite (str_encode_Some _ _ Hs). cbn [mbind result_bind].
  unfold encode_hint. rewrite type_map_lookup. simpl.
  destruct (Z.of_nat (length bs) <=? 63) eqn:E; [exfalso; lia|].
  by rewrite andb_false_r.
Qed.

(** C6. A string whose UTF-8 encoding has [L] bytes: for [L <= 63], the
    empty string included, [encode_item] returns the hint byte of
    [("str", L)] followed by the [L] bytes; for [L > 63] it raises the
    [ValueError] of the length check.  A string of 63 bytes encodes and one
    of 64 bytes does not. *)
Theorem encode_item_str_limit :
  (∀ s bs, Py.utf8_encode s = Some bs → (length bs ≤ 63)%nat →
     ∃ h, encode_hint "str" (Z.of_nat (length bs)) = Ok h
          ∧ encode_item (PyStr s) = Ok (h :: bs)
          ∧ U8Encoder._encode_item (PyStr s) = Ok (h :: bs))
  ∧ (∀ s bs, Py.utf8_encode s = Some bs → (63 < length bs)%nat →
       encode_item (PyStr s) = Raise ValueError_data_bits
       ∧ U8Encoder._encode_item (PyStr s) = Raise ValueError_data_bits)
  ∧ encode_item (PyStr []) = Ok [192]
  ∧ encode_item (PyStr (replicate 63 97)) = Ok (255 :: replicate 63 97)
  ∧ encode_item (PyStr (replicate 64 97)) = Raise ValueError_data_bits.
Proof.
  rewrite class_encode_item. split_and!.
  - intros s bs Hs Hlen. exists (192 + Z.of_nat (length bs)).
    rewrite encode_hint_str by done. by rewrite (encode_item_str s bs).
  - intros s bs Hs Hlen. by rewrite (encode_item_str_long s bs).
  - vm_compute. reflexivity.
  - vm_compute. reflexivity.
  - vm_compute. reflexivity.
Qed.

Lemma encode_item_str_limit_witness :
  (∃ h, encode_hint "str" 2 = Ok h ∧ encode_item (PyStr [104; 105]) = Ok [h; 104; 105])
  ∧ encode_item (PyStr (replicate 70 0x554A)) = Raise ValueError_data_bits.
Proof.
  destruct encode_item_str_limit as (Hshort & Hlong & _).
  split.
  - destruct (Hshort [104; 105] [104; 105] eq_refl ltac:(simpl; lia)) as (h & Hh & He & _).
    exists h. split; [exact Hh|exact He].
  - assert (Py.utf8_encode (replicate 70 0x554A)
            = Some (mjoin (replicate 70 [0xE5; 0x95; 0x8A]))) as Hs
      by (vm_compute; reflexivity).
    apply (Hlong _ _ Hs). vm_compute. lia.
Defined.

(** ** UTF-8 *)

Lemma land_63 z : Z.land z 0x3F = z mod 64.
Proof. change 0x3F with (2 ^ 6 - 1). by rewrite land_mod by lia. Qed.

Lemma land_31 z : Z.land z 0x1F = z mod 32.
Proof. change 0x1F with (2 ^ 5 - 1). by rewrite land_mod by lia. Qed.

Lemma land_15 z : Z.land z 0x0F = z mod 16.
Proof. change 0x0F with (2 ^ 4 - 1). by rewrite land_mod by lia. Qed.

Lemma land_7 z : Z.land z 0x07 = z mod 8.
Proof. change 0x07 with (2 ^ 3 - 1). by rewrite land_mod by lia. Qed.

Lemma lor_cont r : 0 ≤ r < 64 → Z.lor 0x80 r = 128 + r.
Proof. intros. by apply (lor_const_add 2 r 6). Qed.

Lemma lor_lead2 q : 0 ≤ q < 32 → Z.lor 0xC0 q = 192 + q.
Proof. intros. by apply (lor_const_add 6 q 5). Qed.

Lemma lor_lead3 q : 0 ≤ q < 16 → Z.lor 0xE0 q = 224 + q.
Proof. intros. by apply (lor_const_add 14 q 4). Qed.

Lemma lor_lead4 q : 0 ≤ q < 8 → Z.lor 0xF0 q = 240 + q.
Proof. intros. by apply (lor_const_add 30 q 3). Qed.

(** The bytes of one code point, in arithmetic form. *)
Lemma utf8_encode_cp_arith c bs :
  Py.utf8_encode_cp c = Some bs →
  (0 ≤ c < 0x80 ∧ bs = [c])
  ∨ (0x80 ≤ c < 0x800 ∧ bs = [192 + c `div` 64; 128 + c `mod` 64])
  ∨ (0x800 ≤ c < 0x10000 ∧ ¬ (0xD800 ≤ c ≤ 0xDFFF)
     ∧ bs = [224 + c `div` 4096; 128 + (c `div` 64) `mod` 64; 128 + c `mod` 64])
  ∨ (0x10000 ≤ c < 0x110000
     ∧ bs = [240 + c `div` 262144; 128 + (c `div` 4096) `mod` 64;
             128 + (c `div` 64) `mod` 64; 128 + c `mod` 64]).
Proof.
  unfold Py.utf8_encode_cp.
  rewrite !land_63, !Z.shiftr_div_pow2 by lia.
  change (2 ^ 6) with 64. change (2 ^ 12) with 4096. change (2 ^ 18) with 262144.
  repeat case_match; intros ?; simplify_eq.
  - left. split; [lia|done].
  - right; left. split; [lia|].
    rewrite lor_lead2, lor_cont by (Z.to_euclidean_division_equations; lia). done.
  - right; right; left. split_and!; [lia|lia|lia|].
    rewrite lor_lead3, !lor_cont by (Z.to_euclidean_division_equations; lia). done.
  - right; right; right. split; [lia|].
    rewrite lor_lead4, !lor_cont by (Z.to_euclidean_division_equations; lia). done.
Qed.

Lemma utf8_decode_encode_cp c bs rest :
  Py.utf8_encode_cp c = Some bs →
  Py.utf8_decode (bs ++ rest) = cons c <$> Py.utf8_decode rest.
Proof.
  intros H. apply utf8_encode_cp_arith in H.
  destruct H as [[Hc ->]|[[Hc ->]|[(Hc & Hs & ->)|[Hc ->]]]]; cbn [app Py.utf8_decode].
  - assert (Py.in_range 0 0x7F c = true) as -> by range_test. done.
  - set (b0 := 192 + c `div` 64). set (b1 := 128 + c `mod` 64).
    assert (Py.in_range 0 0x7F b0 = false) as -> by (subst b0; range_test).
    assert (Py.in_range 0xC2 0xDF b0 = true) as -> by (subst b0; range_test).
    assert (Py.is_cont b1 = true) as -> by (subst b1; range_test).
    assert (Z.lor (Z.shiftl (Z.land b0 0x1F) 6) (Py.payload b1) = c) as ->; [|done].
    unfold Py.payload. rewrite land_31, land_63.
    rewrite lor_shiftl_add by (subst b1; divmod). subst b0 b1. divmod.
  - set (b0 := 224 + c `div` 4096). set (b1 := 128 + (c `div` 64) `mod` 64).
    set (b2 := 128 + c `mod` 64).
    assert (Py.in_range 0 0x7F b0 = false) as -> by (subst b0; range_test).
    assert (Py.in_range 0xC2 0xDF b0 = false) as -> by (subst b0; range_test).
    assert (Py.in_range 0xE0 0xEF b0 = true) as -> by (subst b0; range_test).
    assert (Py.in_range (Py.second_lo b0) (Py.second_hi b0) b1 = true) as ->
      by (subst b0 b1; range_test).
    assert (Py.is_cont b2 = true) as -> by (subst b2; range_test).
    cbn [andb].
    assert (Z.lor (Z.shiftl (Z.land b0 0x0F) 12)
              (Z.lor (Z.shiftl (Py.payload b1) 6) (Py.payload b2)) = c) as ->; [|done].
    unfold Py.payload. rewrite land_15, !land_63.
    rewrite (lor_shiftl_add (b1 `mod` 64)) by (subst b2; divmod).
    rewrite lor_shiftl_add by (subst b1 b2; divmod). subst b0 b1 b2. divmod.
  - set (b0 := 240 + c `div` 262144). set (b1 := 128 + (c `div` 4096) `mod` 64).
    set (b2 := 128 + (c `div` 64) `mod` 64). set (b3 := 128 + c `mod` 64).
    assert (Py.in_range 0 0x7F b0 = false) as -> by (subst b0; range_test).
    assert (Py.in_range 0xC2 0xDF b0 = false) as -> by (subst b0; range_test).
    assert (Py.in_range 0xE0 0xEF b0 = false) as -> by (subst b0; range_test).
    assert (Py.in_range 0xF0 0xF4 b0 = true) as -> by (subst b0; range_test).
    assert (Py.in_range (Py.second_lo b0) (Py.second_hi b0) b1 = true) as ->
      by (subst b0 b1; range_test).
    assert (Py.is_cont b2 = true) as -> by (subst b2; range_test).
    assert (Py.is_cont b3 = true) as -> by (subst b3; range_test).
    cbn [andb].
    assert (Z.lor (Z.shiftl (Z.land b0 0x07) 18)
              (Z.lor (Z.shiftl (Py.payload b1) 12)
                 (Z.lor (Z.shiftl (Py.payload b2) 6) (Py.payload b3))) = c) as ->; [|done].
    unfold Py.payload. rewrite land_7, !land_63.
    rewrite (lor_shiftl_add (b2 `mod` 64)) by (subst b3; divmod).
    rewrite (lor_shiftl_add (b1 `mod` 64)) by (subst b2 b3; divmod).
    rewrite lor_shiftl_add by (subst b1 b2 b3; divmod). subst b0 b1 b2 b3. divmod.
Qed.

Lemma utf8_decode_encode s bs :
  Py.utf8_encode s = Some bs → Py.utf8_decode bs = Some s.
Proof.
  revert bs. induction s as [|c s IH]; intros bs H; simpl in H.
  - by simplify_eq.
  - destruct (Py.utf8_encode_cp c) as [b|] eqn:Hc; [|done].
    destruct (Py.utf8_encode s) as [bs'|]; [|done]. simplify_eq.
    rewrite (utf8_decode_encode_cp c b bs' Hc), (IH bs' eq_refl). done.
Qed.

Lemma utf8_encode_cp_is_byte c bs :
  Py.utf8_encode_cp c = Some bs → forallb Py.is_byte bs = true.
Proof.
  intros H. apply utf8_encode_cp_arith in H.
  destruct H as [[Hc ->]|[[Hc ->]|[(Hc & Hs & ->)|[Hc ->]]]];
    cbn [forallb]; unfold Py.is_byte; divmod.
Qed.

Lemma utf8_encode_is_byte s bs :
  Py.utf8_encode s = Some bs → forallb Py.is_byte bs = true.
Proof.
  revert bs. induction s as [|c s IH]; intros bs H; simpl in H.
  - by simplify_eq.
  - destruct (Py.utf8_encode_cp c) as [b|] eqn:Hc; [|done].
    destruct (Py.utf8_encode s) as [bs'|]; [|done]. simplify_eq.
    rewrite forallb_app, (utf8_encode_cp_is_byte c b Hc), (IH bs' eq_refl). done.
Qed.

(** ** RecordCodec: encoding *)

Lemma mapM_cons_result {A B} (f : A → result B) x l :
  mapM f (x :: l) = (y ← f x; k ← mapM f l; Ok (y :: k)).
Proof. reflexivity. Qed.

(** The loop of [encode_record] computes the concatenation of the per-value
    encodings, and fails where the first value fails. *)
Lemma encode_items_mapM record acc :
  encode_items record acc = (λ parts, acc ++ mjoin parts) <$> mapM encode_item record.
Proof.
  revert acc. induction record as [|item rest IH]; intros acc.
  - simpl. by rewrite app_nil_r.
  - rewrite mapM_cons_result. cbn [encode_items].
    destruct (encode_item item) as [bs|e]; [|done].
    cbn [mbind result_bind]. rewrite IH.
    destruct (mapM encode_item rest) as [parts|e]; [|done].
    cbn. by rewrite app_assoc.
Qed.

Lemma encode_record_Ok record parts :
  mapM encode_item record = Ok parts →
  (length (mjoin parts) ≤ 256)%nat →
  encode_record record
  = Ok (mjoin parts ++ replicate (256 - length (mjoin parts)) 0).
Proof.
  intros Hp Hlen. unfold encode_record. rewrite encode_items_mapM, Hp.
  cbn [fmap result_fmap mbind result_bind app].
  destruct (256 <? length (mjoin parts))%nat eqn:E; [exfalso; lia|done].
Qed.

Lemma encode_record_too_long record parts :
  mapM encode_item record = Ok parts →
  (256 < length (mjoin parts))%nat →
  encode_record record = Raise ValueError_too_long.
Proof.
  intros Hp Hlen. unfold encode_record. rewrite encode_items_mapM, Hp.
  cbn [fmap result_fmap mbind result_bind app].
  destruct (256 <? length (mjoin parts))%nat eqn:E; [done|exfalso; lia].
Qed.

Lemma encode_record_item_raises record e :
  mapM encode_item record = Raise e → encode_record record = Raise e.
Proof.
  intros Hp. unfold encode_record. by rewrite encode_items_mapM, Hp.
Qed.

(** The error of [encode_record] when a value does not encode is not the one
    of the length check. *)
Lemma encode_item_not_too_long item : encode_item item ≠ Raise ValueError_too_long.
Proof.
  destruct item as [z|bits|s|b|]; try done.
  - cbn [encode_item].
    change (encode_hint "int" 8) with (Ok (A:=Z) 72). cbn [mbind result_bind].
    unfold Py.struct_pack_Q. by case_match.
  - destruct (Py.utf8_encode s) as [bs|] eqn:Hs.
    + destruct (decide (length bs ≤ 63)%nat) as [Hle|Hgt].
      * by rewrite (encode_item_str s bs).
      * by rewrite (encode_item_str_long s bs) by (done || lia).
    + cbn [encode_item]. unfold Py.str_encode. by rewrite Hs.
  - cbn [encode_item].
    change (encode_hint "int" 8) with (Ok (A:=Z) 72). cbn [mbind result_bind].
    unfold Py.struct_pack_Q. by case_match.
Qed.

Lemma mapM_encode_item_not_too_long record :
  mapM encode_item record ≠ Raise ValueError_too_long.
Proof.
  induction record as [|item rest IH]; [done|].
  rewrite mapM_cons_result.
  pose proof (encode_item_not_too_long item).
  destruct (encode_item item) as [bs|e]; [|by intros [= ->]].
  cbn [mbind result_bind].
  destruct (mapM encode_item rest) as [parts|e]; [done|].
  cbn. by intros [= ->].
Qed.

(** C5. [encode_record] raises the [ValueError] of the length check exactly
    when every value encodes and the concatenation of the encodings is
    longer than 256 bytes; for values that encode it fails in no other case;
    nothing is truncated: on success the result has 256 bytes and is the
    concatenation of the per-value encodings followed by zero bytes.  A
    record of 33 integers (297 bytes) fails. *)
Theorem encode_record_limit :
  (∀ record,
     encode_record record = Raise ValueError_too_long ↔
     ∃ parts, mapM encode_item record = Ok parts ∧ (256 < length (mjoin parts))%nat)
  ∧ (∀ record parts, mapM encode_item record = Ok parts →
       (raises (encode_record record) ↔ (256 < length (mjoin parts))%nat))
  ∧ (∀ record out,
       encode_record record = Ok out ↔
       ∃ parts, mapM encode_item record = Ok parts
                ∧ (length (mjoin parts) ≤ 256)%nat
                ∧ out = mjoin parts ++ replicate (256 - length (mjoin parts)) 0)
  ∧ (∀ record out, encode_record record = Ok out → length out = 256%nat)
  ∧ encode_record (replicate 33 (PyInt 1)) = Raise ValueError_too_long
  ∧ U8Encoder.encode_record = encode_record.
Proof.
  assert (∀ record out,
       encode_record record = Ok out ↔
       ∃ parts, mapM encode_item record = Ok parts
                ∧ (length (mjoin parts) ≤ 256)%nat
                ∧ out = mjoin parts ++ replicate (256 - length (mjoin parts)) 0) as Hok.
  { intros record out. split.
    - intros H. destruct (mapM encode_item record) as [parts|e] eqn:Hp.
      + exists parts. destruct (decide (length (mjoin parts) ≤ 256)%nat) as [Hle|Hgt].
        * rewrite (encode_record_Ok _ _ Hp Hle) in H. by simplify_eq.
        * rewrite (encode_record_too_long _ parts) in H by (done || lia). done.
      + by rewrite (encode_record_item_raises _ _ Hp) in H.
    - intros (parts & Hp & Hle & ->). by apply encode_record_Ok. }
  split_and!; [| |exact Hok| | |done].
  - intros record. split.
    + intros H. destruct (mapM encode_item record) as [parts|e] eqn:Hp.
      * exists parts. split; [done|].
        destruct (decide (length (mjoin parts) ≤ 256)%nat) as [Hle|Hgt]; [|lia].
        by rewrite (encode_record_Ok _ _ Hp Hle) in H.
      * rewrite (encode_record_item_raises _ _ Hp) in H. simplify_eq.
        by destruct (mapM_encode_item_not_too_long record).
    + intros (parts & Hp & Hgt). by eapply encode_record_too_long.
  - intros record parts Hp. split.
    + intros [e He].
      destruct (decide (length (mjoin parts) ≤ 256)%nat) as [Hle|Hgt]; [|lia].
      by rewrite (encode_record_Ok _ _ Hp Hle) in He.
    + intros Hgt. exists ValueError_too_long. by eapply encode_record_too_long.
  - intros record out (parts & _ & Hle & ->)%Hok.
    rewrite length_app, length_replicate. lia.
  - vm_compute. reflexivity.
Qed.

Lemma encode_record_limit_witness :
  raises (encode_record (replicate 29 (PyFloat 0)))
  ∧ (∀ out, encode_record [PyInt 42] = Ok out → length out = 256%nat).
Proof.
  destruct encode_record_limit as (_ & Hfail & _ & Hlen & _).
  split.
  - apply (Hfail (replicate 29 (PyFloat 0))
             (replicate 29 (136 :: replicate 8 0))); [reflexivity|].
    vm_compute. lia.
  - intros out. apply (Hlen [PyInt 42] out).
Defined.

(** ** ValueCodec: decoding what was encoded *)

Arguments Py.be_bytes : simpl never.

Lemma bytes_Ok xs : forallb Py.is_byte xs = true → Py.bytes xs = Ok xs.
Proof. intros H. unfold Py.bytes. by rewrite H. Qed.

Lemma decode_item_int z :
  0 ≤ z < 2 ^ 64 → decode_item "int" 8 (Py.be_bytes 8 z) = Ok (PyInt z).
Proof.
  intros Hz. unfold decode_item. cbn [bool_decide decide_rel].
  rewrite bool_decide_eq_true_2 by done.
  rewrite bytes_Ok by apply be_bytes_is_byte. cbn [mbind result_bind].
  unfold Py.struct_unpack_Q. rewrite be_bytes_length. cbn [Nat.eqb].
  by rewrite be_value_be_bytes_8.
Qed.

Lemma decode_item_float bits :
  0 ≤ bits < 2 ^ 64 → decode_item "float" 8 (Py.be_bytes 8 bits) = Ok (PyFloat bits).
Proof.
  intros Hz. unfold decode_item.
  rewrite bool_decide_eq_false_2 by done.
  rewrite bool_decide_eq_true_2 by done.
  rewrite bytes_Ok by apply be_bytes_is_byte. cbn [mbind result_bind].
  unfold Py.struct_unpack_d. rewrite be_bytes_length. cbn [Nat.eqb].
  by rewrite be_value_be_bytes_8.
Qed.

Lemma decode_item_str s bs :
  Py.utf8_encode s = Some bs →
  decode_item "str" (Z.of_nat (length bs)) bs = Ok (PyStr s).
Proof.
  intros Hs. unfold decode_item.
  rewrite !bool_decide_eq_false_2 by done.
  rewrite bool_decide_eq_true_2 by done.
  rewrite bytes_Ok by by eapply utf8_encode_is_byte. cbn [mbind result_bind].
  unfold Py.struct_unpack_s.
  destruct (Z.of_nat (length bs) <? 0) eqn:E; [exfalso; lia|].
  rewrite Z.eqb_refl. cbn [mbind result_bind].
  unfold Py.bytes_decode. by rewrite (utf8_decode_encode s bs Hs).
Qed.

Lemma encode_hint_float_8 : encode_hint "float" 8 = Ok 136.
Proof. vm_compute. reflexivity. Qed.

Lemma encode_item_int z :
  0 ≤ z < 2 ^ 64 → encode_item (PyInt z) = Ok (72 :: Py.be_bytes 8 z).
Proof.
  intros Hz. cbn [encode_item].
  rewrite encode_hint_int_8, struct_pack_Q_Ok by done. reflexivity.
Qed.

Lemma encode_item_float bits :
  encode_item (PyFloat bits) = Ok (136 :: Py.be_bytes 8 bits).
Proof. cbn [encode_item]. rewrite encode_hint_float_8. reflexivity. Qed.

(** The round trip of one value: the hint byte of an encoded value decodes
    to its type and to the length of its payload, and the payload decodes
    to the value. *)
Lemma decode_item_encoded v bs :
  supported v = true → encode_item v = Ok bs →
  ∃ h payload ty,
    bs = h :: payload
    ∧ 64 ≤ h
    ∧ decode_hint h = Ok (ty, Z.of_nat (length payload))
    ∧ decode_item ty (Z.of_nat (length payload)) payload = Ok v
    ∧ length bs = encoded_size v.
Proof.
  intros Hsup Henc. destruct v as [z|bits|s|b|]; try done.
  - cbn [supported] in Hsup. assert (0 ≤ z < 2 ^ 64) as Hz by lia.
    rewrite encode_item_int in Henc by done. injection Henc as <-.
    exists 72, (Py.be_bytes 8 z), "int"%string. split_and!; [done|lia|done| |].
    + rewrite be_bytes_length. by apply decode_item_int.
    + cbn [length encoded_size]. by rewrite be_bytes_length.
  - cbn [supported] in Hsup. assert (0 ≤ bits < 2 ^ 64) as Hz by lia.
    rewrite encode_item_float in Henc. injection Henc as <-.
    exists 136, (Py.be_bytes 8 bits), "float"%string. split_and!; [done|lia|done| |].
    + rewrite be_bytes_length. by apply decode_item_float.
    + cbn [length encoded_size]. by rewrite be_bytes_length.
  - cbn [supported] in Hsup.
    destruct (Py.utf8_encode s) as [ebs|] eqn:Hs; [|done].
    assert (length ebs ≤ 63)%nat as Hlen by lia.
    rewrite (encode_item_str s ebs Hs Hlen) in Henc. simplify_eq.
    eexists _, _, "str"%string. split_and!; [done|lia| | |].
    + replace (192 + Z.of_nat (length ebs))
        with (Z.lor (Z.shiftl 3 6) (Z.of_nat (length ebs)))
        by (rewrite hint_split; lia).
      apply decode_hint_encoded; [done|lia].
    + by apply decode_item_str.
    + cbn [length encoded_size]. by rewrite Hs.
Qed.

(** ** RecordCodec: the decoding loop *)

Lemma slice_middle pre (h : Z) payload post :
  slice (pre ++ (h :: payload) ++ post) (length pre + 1)
    (length pre + 1 + length payload) = payload.
Proof.
  unfold slice.
  replace (length pre + 1 + length payload - (length pre + 1))%nat
    with (length payload) by lia.
  replace (pre ++ (h :: payload) ++ post) with ((pre ++ [h]) ++ payload ++ post)
    by (by rewrite <- !app_assoc).
  rewrite drop_app_length' by (rewrite length_app; simpl; lia).
  by rewrite take_app_length.
Qed.

Lemma loop_body_encoded v bs pre post :
  supported v = true → encode_item v = Ok bs →
  loop_body (pre ++ bs ++ post) (length pre) = Ok (Next (length bs - 1) v).
Proof.
  intros Hsup Henc.
  destruct (decode_item_encoded v bs Hsup Henc)
    as (h & payload & ty & -> & Hh & Hhint & Hitem & _).
  unfold loop_body. cbn [app].
  rewrite list_lookup_middle by done.
  destruct (h =? 0) eqn:E; [exfalso; lia|].
  rewrite Hhint. cbn [mbind result_bind]. rewrite Nat2Z.id.
  change (h :: payload ++ post) with ((h :: payload) ++ post).
  rewrite slice_middle, Hitem. cbn [mbind result_bind length].
  by replace (S (length payload) - 1)%nat with (length payload) by lia.
Qed.

Lemma decode_loop_encoded record :
  ∀ parts pre post acc,
    Forall (λ v, supported v = true) record →
    mapM encode_item record = Ok parts →
    (length pre + length (mjoin parts) ≤ 256)%nat →
    decode_loop (pre ++ mjoin parts ++ post) (length pre) acc
    = decode_loop (pre ++ mjoin parts ++ post)
        (length pre + length (mjoin parts)) (acc ++ record).
Proof.
  induction record as [|v rest IH]; intros parts pre post acc Hsup Hp Hlen.
  - injection Hp as <-. cbn [mjoin list_join length].
    by rewrite Nat.add_0_r, app_nil_r.
  - rewrite mapM_cons_result in Hp.
    destruct (encode_item v) as [bs|] eqn:Hv; [|done]. cbn [mbind result_bind] in Hp.
    destruct (mapM encode_item rest) as [parts'|] eqn:Hrest; [|done].
    cbn in Hp. simplify_eq.
    apply Forall_cons in Hsup as [Hv_sup Hrest_sup].
    destruct (decode_item_encoded v bs Hv_sup Hv) as (h & payload & _ & Hbs & _).
    assert (1 ≤ length bs)%nat as Hpos by (subst bs; simpl; lia).
    change (mjoin (bs :: parts')) with (bs ++ mjoin parts') in *.
    rewrite length_app in Hlen.
    rewrite decode_loop_eq. rewrite decide_True by lia.
    rewrite <- (app_assoc bs).
    rewrite (loop_body_encoded v bs pre _ Hv_sup Hv).
    replace (length pre + (length bs - 1) + 1)%nat with (length (pre ++ bs))
      by (rewrite length_app; lia).
    replace (pre ++ bs ++ mjoin parts' ++ post)
      with ((pre ++ bs) ++ mjoin parts' ++ post) by (by rewrite <- app_assoc).
    rewrite (IH parts' (pre ++ bs) post (acc ++ [v]) Hrest_sup eq_refl)
      by (rewrite length_app; lia).
    rewrite !length_app, <- (app_assoc acc). f_equal. lia.
Qed.

(** Decoding an encoded record: the loop stops at the end of the encoded
    values, with the values of the record. *)
Lemma decode_loop_encode_record record parts r :
  Forall (λ v, supported v = true) record →
  mapM encode_item record = Ok parts →
  encode_record record = Ok r →
  decode_loop r 0 [] = Ok (record, length (mjoin parts)).
Proof.
  intros Hsup Hp Hr.
  destruct (decide (length (mjoin parts) ≤ 256)%nat) as [Hle|Hgt];
    [|by rewrite (encode_record_too_long _ parts) in Hr by (done || lia)].
  rewrite (encode_record_Ok _ _ Hp Hle) in Hr. simplify_eq.
  pose proof (decode_loop_encoded record parts []
                (replicate (256 - length (mjoin parts)) 0) [] Hsup Hp Hle) as Hloop.
  cbn [app length Nat.add] in Hloop. rewrite Hloop.
  rewrite decode_loop_eq. case_decide as Hlt; [|done].
  unfold loop_body. rewrite lookup_app_r by lia.
  rewrite Nat.sub_diag, lookup_replicate_2 by lia. done.
Qed.

Lemma supported_mapM record :
  Forall (λ v, supported v = true) record →
  ∃ parts, mapM encode_item record = Ok parts
           ∧ length (mjoin parts) = row_size record.
Proof.
  induction 1 as [|v rest Hv _ (parts & Hp & Hlen)].
  - by exists [].
  - assert (∃ bs, encode_item v = Ok bs) as [bs Hbs].
    { destruct v as [z|bits|s|b|]; try done.
      - cbn [supported] in Hv. eexists. apply encode_item_int. lia.
      - eexists. apply encode_item_float.
      - cbn [supported] in Hv. destruct (Py.utf8_encode s) as [ebs|] eqn:Hs; [|done].
        eexists. apply (encode_item_str s ebs Hs). lia. }
    destruct (decode_item_encoded v bs Hv Hbs) as (_ & _ & _ & _ & _ & _ & _ & Hsize).
    exists (bs :: parts). rewrite mapM_cons_result, Hbs, Hp. split; [done|].
    change (mjoin (bs :: parts)) with (bs ++ mjoin parts).
    rewrite length_app, Hlen, Hsize. reflexivity.
Qed.

(** C1. A row of supported values (integers in [0, 2^64), floats, strings of
    at most 63 UTF-8 bytes) whose encoded size, the sum of 1 + payload
    length over the values, is at most 256 bytes, is returned by
    [decode_record(encode_record(row))] unchanged: the same values in the
    same order, floats with the same 64 bits. *)
Theorem record_round_trip (record : list pyval) :
  Forall (λ v, supported v = true) record →
  (row_size record ≤ 256)%nat →
  round_trip record = Ok record ∧ class_round_trip record = Ok record.
Proof.
  intros Hsup Hsize.
  unfold class_round_trip. rewrite class_encode_record.
  assert (round_trip record = Ok record) as Hrt.
  { destruct (supported_mapM record Hsup) as (parts & Hp & Hlen).
    unfold round_trip.
    pose proof (encode_record_Ok record parts Hp ltac:(lia)) as Hr.
    rewrite Hr. cbn [mbind result_bind].
    unfold decode_record.
    rewrite length_app, length_replicate.
    replace (length (mjoin parts) + (256 - length (mjoin parts)))%nat with 256%nat by lia.
    rewrite Nat.eqb_refl. cbn [negb].
    by rewrite (decode_loop_encode_record record parts _ Hsup Hp Hr). }
  split; [done|].
  unfold round_trip in Hrt. destruct (encode_record record) as [r|e]; [|done].
  cbn [mbind result_bind] in *. by rewrite class_decode_record.
Qed.

Lemma record_round_trip_witness :
  round_trip [PyInt 42; PyFloat 0x40091EB851EB851F; PyStr [104; 105]]
  = Ok [PyInt 42; PyFloat 0x40091EB851EB851F; PyStr [104; 105]].
Proof.
  apply (record_round_trip [PyInt 42; PyFloat 0x40091EB851EB851F; PyStr [104; 105]]).
  - repeat constructor.
  - vm_compute. lia.
Defined.

(** ** RecordCodec: how the loop runs *)

(** Induction along the iterations of the loop. *)
Lemma decode_loop_ind (r : list Z)
    (P : nat → list pyval → result (list pyval * nat) → Prop) :
  (∀ i acc, (256 ≤ i)%nat → P i acc (Ok (acc, i))) →
  (∀ i acc e, (i < 256)%nat → loop_body r i = Raise e → P i acc (Raise e)) →
  (∀ i acc, (i < 256)%nat → loop_body r i = Ok Break → P i acc (Ok (acc, i))) →
  (∀ i acc n v, (i < 256)%nat → loop_body r i = Ok (Next n v) →
     P (i + n + 1)%nat (acc ++ [v]) (decode_loop r (i + n + 1) (acc ++ [v])) →
     P i acc (decode_loop r (i + n + 1) (acc ++ [v]))) →
  ∀ i acc, P i acc (decode_loop r i acc).
Proof.
  intros Hexit Hraise Hbreak Hnext i.
  remember (256 - i)%nat as m eqn:Hm. revert i Hm.
  induction (lt_wf m) as [m _ IH]. intros i -> acc.
  rewrite decode_loop_eq. case_decide as Hlt; [|apply Hexit; lia].
  destruct (loop_body r i) as [[|n v]|e] eqn:Hbody.
  - by apply Hbreak.
  - apply Hnext; [done|done|]. eapply IH; [|done]. lia.
  - by apply Hraise.
Qed.

Lemma decode_hint_len b ty len : decode_hint b = Ok (ty, len) → 0 ≤ len ≤ 63.
Proof.
  unfold decode_hint. case_match; [|done]. intros [= _ <-].
  rewrite land_63. divmod.
Qed.

Lemma decode_item_no_IndexError ty len bs : decode_item ty len bs ≠ Raise IndexError.
Proof.
  unfold decode_item, Py.bytes, Py.struct_unpack_Q, Py.struct_unpack_d,
    Py.struct_unpack_s, Py.bytes_decode.
  repeat (case_match; cbn [mbind result_bind fmap result_fmap]; try done).
Qed.

(** What one pass through the loop body reads and returns. *)
Lemma loop_body_cases r i :
  match loop_body r i with
  | Ok Break => r !! i = Some 0
  | Ok (Next n v) =>
      ∃ b ty, r !! i = Some b ∧ b ≠ 0
              ∧ decode_hint b = Ok (ty, Z.of_nat n) ∧ (n ≤ 63)%nat
              ∧ decode_item ty (Z.of_nat n) (slice r (i + 1) (i + 1 + n)) = Ok v
  | Raise e => e = IndexError ↔ (length r ≤ i)%nat
  end.
Proof.
  unfold loop_body. destruct (r !! i) as [b|] eqn:Hb.
  - apply lookup_lt_Some in Hb as Hi.
    destruct (b =? 0) eqn:E; [f_equal; lia|].
    destruct (decode_hint b) as [[ty len]|e] eqn:Hh; cbn [mbind result_bind].
    + pose proof (decode_hint_len _ _ _ Hh) as Hlen.
      destruct (decode_item ty len _) as [v|e] eqn:Hitem; cbn [mbind result_bind].
      * exists b, ty. rewrite Z2Nat.id by lia. split_and!; try done; lia.
      * split; [|lia]. intros ->. by apply decode_item_no_IndexError in Hitem.
    + split; [|lia]. intros ->. unfold decode_hint in Hh. by case_match.
  - apply lookup_ge_None in Hb. done.
Qed.

Lemma slice_lookup (xs : list Z) a b k x :
  slice xs a b !! k = Some x → (a + k < length xs)%nat ∧ (a + k < b)%nat ∧ xs !! (a + k)%nat = Some x.
Proof.
  unfold slice. intros H.
  apply lookup_take_Some in H as [H Hk]. rewrite lookup_drop in H.
  split_and!; [by eapply lookup_lt_Some|lia|done].
Qed.

(** Where the loop is left: at a zero hint byte or at an offset of at least
    256, after at most one iteration per offset below 256; an index out of
    range is never raised on a record of 256 bytes. *)
Lemma decode_loop_exit r :
  length r = 256%nat →
  ∀ i acc,
    match decode_loop r i acc with
    | Ok (vs, p) =>
        (i ≤ p)%nat
        ∧ ((p < 256)%nat ∧ r !! p = Some 0 ∨ (256 ≤ p)%nat)
        ∧ (p ≤ i `max` 319)%nat
        ∧ ∃ items, vs = acc ++ items ∧ (length items ≤ 256 - i)%nat
    | Raise e => e ≠ IndexError
    end.
Proof.
  intros Hr. apply (decode_loop_ind r (λ i acc res,
    match res with
    | Ok (vs, p) =>
        (i ≤ p)%nat
        ∧ ((p < 256)%nat ∧ r !! p = Some 0 ∨ (256 ≤ p)%nat)
        ∧ (p ≤ i `max` 319)%nat
        ∧ ∃ items, vs = acc ++ items ∧ (length items ≤ 256 - i)%nat
    | Raise e => e ≠ IndexError
    end)).
  - intros i acc Hi. split_and!; [lia|right; lia|lia|].
    exists []. rewrite app_nil_r. split; [done|simpl; lia].
  - intros i acc e Hi Hbody. pose proof (loop_body_cases r i) as Hc.
    rewrite Hbody in Hc. intros ->. assert (length r ≤ i)%nat by by apply Hc. lia.
  - intros i acc Hi Hbody. pose proof (loop_body_cases r i) as Hc.
    rewrite Hbody in Hc. split_and!; [lia|left; done|lia|].
    exists []. rewrite app_nil_r. split; [done|simpl; lia].
  - intros i acc n v Hi Hbody IH. pose proof (loop_body_cases r i) as Hc.
    rewrite Hbody in Hc. destruct Hc as (b & ty & _ & _ & _ & Hn & _).
    destruct (decode_loop r (i + n + 1) (acc ++ [v])) as [[vs p]|e]; [|done].
    destruct IH as (Hle & Hstop & Hmax & items & -> & Hitems).
    split_and!; [lia|done|lia|].
    exists (v :: items). rewrite <- app_assoc. split; [done|]. simpl. lia.
Qed.

(** C9. On a record of 256 bytes the loop of [decode_record] terminates
    without reading at offset 256 or beyond: a pass through its body at an
    offset below 256 reads the hint byte in range, never raises an index
    error, takes its payload from offsets below 256 and advances the offset
    by 1 + the length field, between 1 and 64; the loop is left at the
    sentinel byte 0 or once the offset has reached 256, after at most 256
    values.  A record whose encoded values fill the 256 bytes, with no
    padding, decodes to its values and the loop stops at offset 256. *)
Theorem decode_record_safe :
  (∀ b ty len, decode_hint b = Ok (ty, len) → 1 ≤ len + 1 ≤ 64)
  ∧ (∀ r, length r = 256%nat →
       (∀ i, (i < 256)%nat →
          (loop_body r i = Ok Break ↔ r !! i = Some 0)
          ∧
          match loop_body r i with
          | Ok Break => r !! i = Some 0
          | Ok (Next n v) =>
              (i < i + n + 1 ≤ i + 64)%nat
              ∧ (∃ b, r !! i = Some b ∧ b ≠ 0)
              ∧ (∀ k x, slice r (i + 1) (i + 1 + n) !! k = Some x →
                        (i + 1 + k < 256)%nat ∧ r !! (i + 1 + k)%nat = Some x)
          | Raise e => e ≠ IndexError
          end)
       ∧ match decode_loop r 0 [] with
         | Ok (vs, p) =>
             ((p < 256)%nat ∧ r !! p = Some 0 ∨ (256 ≤ p)%nat)
             ∧ (length vs ≤ 256)%nat
             ∧ decode_record r = Ok vs
             ∧ U8Encoder.decode_record r = Ok vs
         | Raise e =>
             e ≠ IndexError
             ∧ decode_record r = Raise e
             ∧ U8Encoder.decode_record r = Raise e
         end)
  ∧ (∀ record,
       Forall (λ v, supported v = true) record →
       row_size record = 256%nat →
       ∃ parts,
         mapM encode_item record = Ok parts
         ∧ encode_record record = Ok (mjoin parts)
         ∧ decode_loop (mjoin parts) 0 [] = Ok (record, 256%nat)
         ∧ decode_record (mjoin parts) = Ok record
         ∧ U8Encoder.decode_record (mjoin parts) = Ok record).
Proof.
  split_and!.
  - intros b ty len H%decode_hint_len. lia.
  - intros r Hr. split.
    + intros i Hi. pose proof (loop_body_cases r i) as Hc. split.
      { split; [intros Hb; by rewrite Hb in Hc|].
        intros Hz. unfold loop_body. by rewrite Hz. }
      destruct (loop_body r i) as [[|n v]|e]; [done| |].
      * destruct Hc as (b & ty & Hb & Hnz & _ & Hn & _).
        split_and!; [lia|lia|by exists b|].
        intros k x Hk. apply slice_lookup in Hk as (? & ? & ?). split; [lia|done].
      * intros ->. assert (length r ≤ i)%nat by by apply Hc. lia.
    + pose proof (decode_loop_exit r Hr 0%nat []) as Hexit.
      assert (decode_record r = fst <$> decode_loop r 0 []) as Hdec.
      { unfold decode_record. by rewrite Hr. }
      rewrite class_decode_record, Hdec.
      destruct (decode_loop r 0 []) as [[vs p]|e]; [|done].
      destruct Hexit as (_ & Hstop & _ & items & -> & Hitems).
      split_and!; [done|simpl; lia|done|done].
  - intros record Hsup Hsize.
    destruct (supported_mapM record Hsup) as (parts & Hp & Hlen).
    exists parts.
    pose proof (encode_record_Ok record parts Hp ltac:(lia)) as Hr.
    replace (256 - length (mjoin parts))%nat with 0%nat in Hr by lia.
    cbn [replicate] in Hr. rewrite app_nil_r in Hr.
    pose proof (decode_loop_encode_record record parts _ Hsup Hp Hr) as Hloop.
    rewrite Hlen, Hsize in Hloop.
    assert (decode_record (mjoin parts) = Ok record) as Hdec.
    { unfold decode_record. rewrite Hlen, Hsize, Hloop. done. }
    rewrite class_decode_record. done.
Qed.

Lemma decode_record_safe_witness :
  let record := replicate 28 (PyInt 42) ++ [PyStr [97; 98; 99]] in
  (∃ parts,
     mapM encode_item record = Ok parts
     ∧ encode_record record = Ok (mjoin parts)
     ∧ decode_loop (mjoin parts) 0 [] = Ok (record, 256%nat)
     ∧ decode_record (mjoin parts) = Ok record
     ∧ U8Encoder.decode_record (mjoin parts) = Ok record)
  ∧ loop_body (replicate 256 0) 0 = Ok Break
  ∧ 1 ≤ 8 + 1 ≤ 64.
Proof.
  intros record.
  destruct decode_record_safe as (Hhint & Hloop & Hfill).
  split; [|split].
  - apply (Hfill record).
    + subst record. apply Forall_app. split; [apply Forall_replicate|]; repeat constructor.
    + vm_compute. reflexivity.
  - destruct (Hloop (replicate 256 0) ltac:(apply length_replicate)) as [Hbody _].
    destruct (Hbody 0%nat ltac:(lia)) as [Hbreak _].
    apply Hbreak. reflexivity.
  - apply (Hhint 72 "int"%string 8). vm_compute. reflexivity.
Defined.

(** ** RecordCodec: what the loop depends on *)

Lemma decode_loop_mono r i acc vs p :
  decode_loop r i acc = Ok (vs, p) → (i ≤ p)%nat.
Proof.
  revert vs p. apply (decode_loop_ind r (λ i acc res,
    ∀ vs p, res = Ok (vs, p) → (i ≤ p)%nat)).
  - intros ?? _ ?? [= _ <-]. lia.
  - done.
  - intros ?? _ _ ?? [= _ <-]. lia.
  - intros ???? _ _ IH vs p H. specialize (IH vs p H). lia.
Qed.

Lemma take_agree_lookup (a b : list Z) k i :
  take k a = take k b → (i < k)%nat → a !! i = b !! i.
Proof.
  intros H Hi. by rewrite <- (lookup_take_lt a k i), <- (lookup_take_lt b k i), H.
Qed.

Lemma take_agree_slice (a b : list Z) k m n :
  take k a = take k b → (n ≤ k)%nat → slice a m n = slice b m n.
Proof.
  intros H Hn. unfold slice. destruct (decide (m ≤ n)%nat) as [Hmn|Hmn].
  - rewrite !take_drop_commute. replace (m + (n - m))%nat with n by lia.
    assert (take n a = take n b) as ->; [|done].
    replace n with (n `min` k)%nat by lia. by rewrite <- !take_take, H.
  - by replace (n - m)%nat with 0%nat by lia.
Qed.

(** A pass through the loop body depends on the hint byte and on the payload
    it announces, on nothing else. *)
Lemma loop_body_agree a b i k st :
  take k a = take k b →
  loop_body a i = Ok st →
  match st with
  | Break => (i < k)%nat
  | Next n _ => (i + n + 1 ≤ k)%nat
  end →
  loop_body b i = Ok st.
Proof.
  intros Hab Ha Hk. unfold loop_body in *.
  assert (i < k)%nat as Hi by (destruct st; lia).
  rewrite <- (take_agree_lookup a b k i Hab Hi).
  destruct (a !! i) as [h|]; [|done].
  destruct (h =? 0); [done|].
  destruct (decode_hint h) as [[ty len]|e]; [|done].
  cbn [mbind result_bind] in *.
  destruct (decode_item ty len (slice a _ _)) as [v|e] eqn:Hitem; [|done].
  cbn [mbind result_bind] in Ha. injection Ha as <-.
  rewrite <- (take_agree_slice a b k _ _ Hab) by lia.
  by rewrite Hitem.
Qed.

Lemma decode_loop_agree a b :
  ∀ i acc vs p,
    decode_loop a i acc = Ok (vs, p) →
    take (S p) a = take (S p) b →
    decode_loop b i acc = Ok (vs, p).
Proof.
  apply (decode_loop_ind a (λ i acc res,
    ∀ vs p, res = Ok (vs, p) → take (S p) a = take (S p) b →
            decode_loop b i acc = Ok (vs, p))).
  - intros i acc Hi vs p [= <- <-] _.
    rewrite decode_loop_eq. by rewrite decide_False by lia.
  - done.
  - intros i acc Hi Hbody vs p [= <- <-] Hab.
    rewrite decode_loop_eq, decide_True by done.
    by rewrite (loop_body_agree a b i (S i) Break Hab Hbody) by lia.
  - intros i acc n v Hi Hbody IH vs p Hres Hab.
    pose proof (decode_loop_mono _ _ _ _ _ Hres) as Hmono.
    rewrite decode_loop_eq, decide_True by done.
    rewrite (loop_body_agree a b i (S p) (Next n v) Hab Hbody) by lia.
    by apply IH.
Qed.

(** C8, as the claim states it, fails: the first zero byte of a buffer can
    stand inside a payload.  The two records below hold the integers 42 and
    43; their first zero byte is at offset 1 and they are equal up to it. *)
Lemma first_zero_counterexample :
  ¬ (∀ a b p,
       length a = 256%nat → length b = 256%nat →
       first_zero a = Some p → first_zero b = Some p →
       take (S p) a = take (S p) b →
       decode_record a = decode_record b).
Proof.
  intros H.
  specialize (H ([72; 0; 0; 0; 0; 0; 0; 0; 42] ++ replicate 247 0)
                ([72; 0; 0; 0; 0; 0; 0; 0; 43] ++ replicate 247 0) 1%nat
                eq_refl eq_refl eq_refl eq_refl eq_refl).
  vm_compute in H. discriminate H.
Qed.

(** C8, amended.  When [decode_record] returns on a buffer of 256 bytes, its
    loop having stopped at offset [p] (the sentinel, a zero byte where a hint
    byte is expected, or an offset of at least 256), it returns the same
    values on every buffer of 256 bytes that is equal to the first at every
    offset up to and including [p]: the bytes after the sentinel are neither
    read nor checked to be zero. *)
Theorem decode_record_padding_lenient (a b : list Z) (vs : list pyval) (p : nat) :
  length a = 256%nat → length b = 256%nat →
  decode_loop a 0 [] = Ok (vs, p) →
  take (S p) a = take (S p) b →
  ((p < 256)%nat ∧ a !! p = Some 0 ∨ (256 ≤ p)%nat)
  ∧ decode_record a = Ok vs ∧ decode_record b = Ok vs
  ∧ U8Encoder.decode_record a = Ok vs ∧ U8Encoder.decode_record b = Ok vs.
Proof.
  intros Ha Hb Hloop Hab.
  pose proof (decode_loop_agree a b _ _ _ _ Hloop Hab) as Hloop_b.
  pose proof (decode_loop_exit a Ha 0%nat []) as Hexit. rewrite Hloop in Hexit.
  destruct Hexit as (_ & Hstop & _).
  rewrite !class_decode_record. unfold decode_record.
  rewrite Ha, Hb, Hloop, Hloop_b. done.
Qed.

(** [[42]] followed by zero padding, and by padding that is not zero. *)
Lemma decode_record_padding_lenient_witness :
  decode_record ([72; 0; 0; 0; 0; 0; 0; 0; 42; 0] ++ replicate 246 7) = Ok [PyInt 42].
Proof.
  apply (decode_record_padding_lenient
           ([72; 0; 0; 0; 0; 0; 0; 0; 42] ++ replicate 247 0)
           ([72; 0; 0; 0; 0; 0; 0; 0; 42; 0] ++ replicate 246 7)
           [PyInt 42] 9%nat); vm_compute; reflexivity.
Defined.

(** ** Tables *)

Lemma mapM_Ok {A B} (f : A → result B) l k :
  mapM f l = Ok k ↔ Forall2 (λ x y, f x = Ok y) l k.
Proof.
  revert k. induction l as [|x l IH]; intros k.
  - split; [intros [= <-]; constructor|by inversion 1].
  - rewrite mapM_cons_result. split.
    + destruct (f x) as [y|] eqn:Hy; [|done]. cbn [mbind result_bind].
      destruct (mapM f l) as [k'|]; [|done]. intros [= <-].
      constructor; [done|]. by apply IH.
    + inversion 1 as [|?? y k' Hy Hk]; subst. apply IH in Hk.
      by rewrite Hy, Hk.
Qed.

Lemma encode_record_length record out :
  encode_record record = Ok out → length out = 256%nat.
Proof.
  unfold encode_record. rewrite encode_items_mapM.
  destruct (mapM encode_item record) as [parts|]; [|done].
  cbn [fmap result_fmap mbind result_bind app].
  destruct (256 <? length (mjoin parts))%nat eqn:E; [done|]. intros [= <-].
  rewrite length_app, length_replicate. lia.
Qed.


Lemma decode_database_cons {Frame} {C : DataFrameConstructor Frame} r0 rest :
  decode_database (r0 :: rest) =
    (header ← decode_record r0;
     data_records ← mapM decode_record rest;
     pd_DataFrame data_records (Some header)).
Proof.
  unfold decode_database. cbn [iloc_0 iloc_1_ drop mbind result_bind].
  by rewrite drop_0.
Qed.

Lemma mapM_class_decode_record l :
  mapM U8Encoder.decode_record l = mapM decode_record l.
Proof.
  induction l as [|r rest IH]; [done|].
  by rewrite !mapM_cons_result, class_decode_record, IH.
Qed.

Lemma class_decode_database_eq {Frame} {C : DataFrameConstructor Frame} encoded_df :
  U8Encoder.decode_database encoded_df =
    (decoded ← mapM decode_record encoded_df; pd_DataFrame decoded None).
Proof. unfold U8Encoder.decode_database. by rewrite mapM_class_decode_record. Qed.



(** ** The two copies *)

(** C2, as the claim states it, fails on the table operations: on the table
    with columns ["a", "b"] and rows [[1, "x"], [2, "y"]] the copies return
    three records and two, and on its three records they call the
    constructor on two rows with the names and on three rows without. *)
Lemma copies_differ_counterexample :
  ¬ (∀ df, U8Encoder.encode_database df = encode_database df)
  ∧ ¬ (∀ (Frame : Type) (C : DataFrameConstructor Frame) encoded_df,
         U8Encoder.decode_database encoded_df = decode_database encoded_df).
Proof.
  split.
  - intros H.
    specialize (H (observed [PyStr [97]; PyStr [98]]
                     [[PyInt 1; PyStr [120]]; [PyInt 2; PyStr [121]]])).
    vm_compute in H. discriminate H.
  - intros H.
    specialize (H (list (list pyval) * option (list pyval))%type
                  (λ data columns, Ok (data, columns))
                  [[193; 97; 193; 98] ++ replicate 252 0;
                   [72; 0; 0; 0; 0; 0; 0; 0; 1; 193; 120] ++ replicate 245 0;
                   [72; 0; 0; 0; 0; 0; 0; 0; 2; 193; 121] ++ replicate 245 0]).
    vm_compute in H. discriminate H.
Qed.

(** C2, amended.  The two copies agree on the hint, item and record
    operations: each returns the same result or raises the same exception
    in both, for every input.  They differ on tables: [encode_database] of
    U8Encoder.py returns the encoded column names followed by what
    [encode_database] of u8_encode.py returns, one record more, and
    [decode_database] of U8Encoder.py decodes record 0 as the column names,
    calls [pd.DataFrame] on the other rows with these names and fails on an
    empty frame, where that of u8_encode.py decodes every record as a row
    and calls [pd.DataFrame] on all the rows without names. *)
Theorem copies_agree_below_tables :
  (∀ data_type data_bits,
     U8Encoder._encode_hint data_type data_bits = encode_hint data_type data_bits)
  ∧ (∀ encoded_value, U8Encoder._decode_hint encoded_value = decode_hint encoded_value)
  ∧ (∀ item, U8Encoder._encode_item item = encode_item item)
  ∧ (∀ item_type item_len encoded_item,
       U8Encoder._decode_item item_type item_len encoded_item
       = decode_item item_type item_len encoded_item)
  ∧ (∀ record, U8Encoder.encode_record record = encode_record record)
  ∧ (∀ encoded_record, U8Encoder.decode_record encoded_record = decode_record encoded_record)
  ∧ (∀ df,
       encode_database df =
         (header_record ← encode_record (columns_tolist df);
          data_records ← U8Encoder.encode_database df;
          Ok (header_record :: data_records)))
  ∧ (∀ (Frame : Type) (C : DataFrameConstructor Frame) header_encoded data_encoded,
       decode_database (header_encoded :: data_encoded) =
         (header ← decode_record header_encoded;
          rows ← mapM decode_record data_encoded;
          pd_DataFrame rows (Some header))
       ∧ U8Encoder.decode_database (header_encoded :: data_encoded) =
           (row ← decode_record header_encoded;
            rows ← mapM decode_record data_encoded;
            pd_DataFrame (row :: rows) None))
  ∧ (∀ (Frame : Type) (C : DataFrameConstructor Frame),
       decode_database [] = Raise (A := Frame) IndexError
       ∧ U8Encoder.decode_database [] = pd_DataFrame [] None)
  ∧ (∀ df out out',
       encode_database df = Ok out → U8Encoder.encode_database df = Ok out' →
       length out = S (length out')).
Proof.
  split_and!; try done.
  - apply class_decode_record.
  - intros Frame C r0 rest. split; [apply decode_database_cons|].
    rewrite class_decode_database_eq, mapM_cons_result.
    destruct (decode_record r0) as [row|]; [|done]. cbn [mbind result_bind].
    by destruct (mapM decode_record rest).
  - intros df out out'. unfold encode_database, U8Encoder.encode_database.
    rewrite class_encode_record.
    destruct (encode_record (columns_tolist df)) as [h|]; [|done].
    cbn [mbind result_bind].
    destruct (mapM encode_record (iterrows df)) as [rs|]; [|done].
    by intros [= <-] [= <-].
Qed.

Lemma copies_agree_below_tables_witness :
  length ([[192%Z] ++ replicate 255 0; [72; 0; 0; 0; 0; 0; 0; 0; 7] ++ replicate 247 0])
  = S (length [[72; 0; 0; 0; 0; 0; 0; 0; 7] ++ replicate 247 0]).
Proof.
  destruct copies_agree_below_tables as (_ & _ & _ & _ & _ & _ & _ & _ & _ & Hlen).
  apply (Hlen (observed [PyStr []] [[PyInt 7]])); vm_compute; reflexivity.
Defined.

(** * Further properties of the codec *)

(** ** Big-endian bytes, read back *)

Lemma be_bytes_S n z :
  Py.be_bytes (S n) z = Py.be_bytes n (Z.shiftr z 8) ++ [Z.land z 0xFF].
Proof. reflexivity. Qed.

Lemma is_byte_range b : Py.is_byte b = true ↔ 0 ≤ b < 256.
Proof. unfold Py.is_byte. lia. Qed.

Lemma be_value_snoc_byte bs b :
  0 ≤ b < 256 → Py.be_value (bs ++ [b]) = Py.be_value bs * 256 + b.
Proof.
  intros Hb. rewrite be_value_snoc, lor_shiftl_add by lia. done.
Qed.

Lemma be_value_bounds bs :
  forallb Py.is_byte bs = true →
  0 ≤ Py.be_value bs < 2 ^ (8 * Z.of_nat (length bs)).
Proof.
  induction bs as [|b bs IH] using rev_ind; intros Hbs.
  - cbn. lia.
  - rewrite forallb_app in Hbs. cbn [forallb] in Hbs.
    assert (forallb Py.is_byte bs = true ∧ 0 ≤ b < 256) as [Hbs' Hb].
    { rewrite <- is_byte_range. destruct (forallb Py.is_byte bs), (Py.is_byte b); done. }
    specialize (IH Hbs'). rewrite be_value_snoc_byte by done.
    rewrite length_app. cbn [length].
    replace (8 * Z.of_nat (length bs + 1)) with (8 * Z.of_nat (length bs) + 8) by lia.
    rewrite Z.pow_add_r by lia. lia.
Qed.

Lemma be_bytes_be_value bs :
  forallb Py.is_byte bs = true →
  Py.be_bytes (length bs) (Py.be_value bs) = bs.
Proof.
  induction bs as [|b bs IH] using rev_ind; intros Hbs; [done|].
  rewrite forallb_app in Hbs. cbn [forallb] in Hbs.
  assert (forallb Py.is_byte bs = true ∧ 0 ≤ b < 256) as [Hbs' Hb].
  { rewrite <- is_byte_range. destruct (forallb Py.is_byte bs), (Py.is_byte b); done. }
  rewrite length_app. cbn [length]. rewrite Nat.add_1_r, be_bytes_S.
  rewrite be_value_snoc_byte by done.
  change 0xFF with (2 ^ 8 - 1). rewrite land_mod, Z.shiftr_div_pow2 by lia.
  change (2 ^ 8) with 256.
  replace ((Py.be_value bs * 256 + b) `div` 256) with (Py.be_value bs) by divmod.
  replace ((Py.be_value bs * 256 + b) `mod` 256) with b by divmod.
  by rewrite IH.
Qed.

(** ** UTF-8, read back *)

Lemma utf8_encode_cp_1 c : 0 ≤ c < 0x80 → Py.utf8_encode_cp c = Some [c].
Proof. intros Hc. unfold Py.utf8_encode_cp. repeat case_match; (done || lia). Qed.

Lemma utf8_encode_cp_2 c :
  0x80 ≤ c < 0x800 →
  Py.utf8_encode_cp c = Some [192 + c `div` 64; 128 + c `mod` 64].
Proof.
  intros Hc. destruct (Py.utf8_encode_cp c) as [bs|] eqn:E.
  - apply utf8_encode_cp_arith in E.
    destruct E as [[? ->]|[[? ->]|[(? & ? & ->)|[? ->]]]]; (done || lia).
  - unfold Py.utf8_encode_cp in E. repeat case_match; (done || lia).
Qed.

Lemma utf8_encode_cp_3 c :
  0x800 ≤ c < 0x10000 → ¬ (0xD800 ≤ c ≤ 0xDFFF) →
  Py.utf8_encode_cp c
  = Some [224 + c `div` 4096; 128 + (c `div` 64) `mod` 64; 128 + c `mod` 64].
Proof.
  intros Hc Hs. destruct (Py.utf8_encode_cp c) as [bs|] eqn:E.
  - apply utf8_encode_cp_arith in E.
    destruct E as [[? ->]|[[? ->]|[(? & ? & ->)|[? ->]]]]; (done || lia).
  - unfold Py.utf8_encode_cp in E. repeat case_match; (done || lia).
Qed.

Lemma utf8_encode_cp_4 c :
  0x10000 ≤ c < 0x110000 →
  Py.utf8_encode_cp c
  = Some [240 + c `div` 262144; 128 + (c `div` 4096) `mod` 64;
          128 + (c `div` 64) `mod` 64; 128 + c `mod` 64].
Proof.
  intros Hc. destruct (Py.utf8_encode_cp c) as [bs|] eqn:E.
  - apply utf8_encode_cp_arith in E.
    destruct E as [[? ->]|[[? ->]|[(? & ? & ->)|[? ->]]]]; (done || lia).
  - unfold Py.utf8_encode_cp in E. repeat case_match; (done || lia).
Qed.

Lemma utf8_encode_decode bs s :
  Py.utf8_decode bs = Some s → Py.utf8_encode s = Some bs.
Proof.
  remember (length bs) as n eqn:Hn. revert bs s Hn.
  induction (lt_wf n) as [n _ IH]. intros bs s -> H.
  assert (∀ t s', (length t < length bs)%nat →
                  Py.utf8_decode t = Some s' → Py.utf8_encode s' = Some t) as IH'.
  { intros t s' Hlt Ht. by eapply (IH (length t)). }
  clear IH. destruct bs as [|b0 t0]; [by injection H as <-|].
  cbn [Py.utf8_decode] in H. cbn [length] in IH'.
  destruct (Py.in_range 0 0x7F b0) eqn:H1.
  { destruct (Py.utf8_decode t0) as [s'|] eqn:Ht; [|done]. injection H as <-.
    cbn [Py.utf8_encode]. unfold Py.in_range in H1.
    rewrite utf8_encode_cp_1 by lia. by rewrite (IH' t0 s') by (done || lia). }
  destruct (Py.in_range 0xC2 0xDF b0) eqn:H2.
  { destruct t0 as [|b1 t1]; [done|].
    destruct (Py.is_cont b1) eqn:Hc1; [|done].
    destruct (Py.utf8_decode t1) as [s'|] eqn:Ht; [|done]. injection H as <-.
    cbn [Py.utf8_encode]. rewrite (IH' t1 s') by (done || simpl; lia).
    unfold Py.is_cont, Py.payload, Py.in_range in *.
    rewrite land_31, land_63, lor_shiftl_add by divmod.
    rewrite utf8_encode_cp_2 by divmod.
    cbn [app]. do 2 f_equal; [divmod|f_equal; divmod]. }
  destruct (Py.in_range 0xE0 0xEF b0) eqn:H3.
  { destruct t0 as [|b1 [|b2 t2]]; [done|done|].
    destruct (Py.in_range (Py.second_lo b0) (Py.second_hi b0) b1) eqn:Hs; [|done].
    destruct (Py.is_cont b2) eqn:Hc2; [|done]. cbn [andb] in H.
    destruct (Py.utf8_decode t2) as [s'|] eqn:Ht; [|done]. injection H as <-.
    cbn [Py.utf8_encode]. rewrite (IH' t2 s') by (done || simpl; lia).
    unfold Py.is_cont, Py.payload, Py.second_lo, Py.second_hi, Py.in_range in *.
    rewrite land_15, !land_63.
    rewrite (lor_shiftl_add (b1 `mod` 64)) by divmod.
    rewrite lor_shiftl_add by divmod.
    rewrite utf8_encode_cp_3 by (repeat case_match; divmod).
    cbn [app]. do 2 f_equal; [repeat case_match; divmod|].
    f_equal; [repeat case_match; divmod|f_equal; divmod]. }
  destruct (Py.in_range 0xF0 0xF4 b0) eqn:H4; [|done].
  destruct t0 as [|b1 [|b2 [|b3 t3]]]; [done|done|done|].
  destruct (Py.in_range (Py.second_lo b0) (Py.second_hi b0) b1) eqn:Hs; [|done].
  destruct (Py.is_cont b2) eqn:Hc2; [|done].
  destruct (Py.is_cont b3) eqn:Hc3; [|done]. cbn [andb] in H.
  destruct (Py.utf8_decode t3) as [s'|] eqn:Ht; [|done]. injection H as <-.
  cbn [Py.utf8_encode]. rewrite (IH' t3 s') by (done || simpl; lia).
  unfold Py.is_cont, Py.payload, Py.second_lo, Py.second_hi, Py.in_range in *.
  rewrite land_7, !land_63.
  rewrite (lor_shiftl_add (b2 `mod` 64)) by divmod.
  rewrite (lor_shiftl_add (b1 `mod` 64)) by divmod.
  rewrite lor_shiftl_add by divmod.
  rewrite utf8_encode_cp_4 by (repeat case_match; divmod).
  cbn [app]. do 2 f_equal; [repeat case_match; divmod|].
  f_equal; [repeat case_match; divmod|].
  f_equal; [divmod|f_equal; divmod].
Qed.

Lemma utf8_decode_is_byte bs s :
  Py.utf8_decode bs = Some s → forallb Py.is_byte bs = true.
Proof.
  intros H. apply utf8_encode_decode in H. by eapply utf8_encode_is_byte.
Qed.

(** ** HintCodec, read back *)

Lemma decode_hint_arith v :
  decode_hint v =
    match Hint.type_map_inv !! ((v `div` 64) `mod` 4) with
    | None => Raise ValueError_type_code
    | Some name => Ok (name, v `mod` 64)
    end.
Proof.
  unfold decode_hint. cbv zeta.
  rewrite land_63, Z.shiftr_div_pow2 by lia.
  change 3 with (2 ^ 2 - 1). by rewrite land_mod by lia.
Qed.

Lemma decode_hint_Ok b ty len :
  decode_hint b = Ok (ty, len) →
  ∃ t, (ty, t) ∈ [("int"%string, 1); ("float"%string, 2); ("str"%string, 3)]
       ∧ (b `div` 64) `mod` 4 = t ∧ len = b `mod` 64.
Proof.
  rewrite decode_hint_arith, type_map_inv_lookup.
  repeat case_decide; intros [= <- <-]; eexists; (split; [|done]);
    rewrite !elem_of_cons; auto.
Qed.

(** X1. The hint byte read back.  [decode_hint] looks at the low eight bits
    of its argument only; on a byte it fails exactly below 64; and
    [encode_hint] of what it returns for a byte is that byte: the two
    functions are inverse bijections between the pairs (type, length in
    0..63) and the bytes 64..255. *)
Theorem decode_hint_inverse :
  (∀ v, decode_hint v = decode_hint (v `mod` 256)
        ∧ U8Encoder._decode_hint v = U8Encoder._decode_hint (v `mod` 256))
  ∧ (∀ b, 0 ≤ b ≤ 255 →
       (decode_hint b = Raise ValueError_type_code ↔ b < 64)
       ∧ ((∃ ty len, decode_hint b = Ok (ty, len)) ↔ 64 ≤ b))
  ∧ (∀ b ty len, 0 ≤ b ≤ 255 → decode_hint b = Ok (ty, len) →
       0 ≤ len ≤ 63
       ∧ encode_hint ty len = Ok b
       ∧ U8Encoder._encode_hint ty len = Ok b).
Proof.
  rewrite class_encode_hint, class_decode_hint.
  split_and!.
  - intros v. split; rewrite !decode_hint_arith;
      by replace (((v `mod` 256) `div` 64) `mod` 4) with ((v `div` 64) `mod` 4) by divmod;
      replace ((v `mod` 256) `mod` 64) with (v `mod` 64) by divmod.
  - intros b Hb. rewrite decode_hint_arith, type_map_inv_lookup.
    assert (b < 64 ↔ (b `div` 64) `mod` 4 = 0) as Hz by divmod.
    split.
    + repeat case_decide; split; intros; (done || divmod).
    + repeat case_decide; split; intros Hs; try divmod; try (by eexists _, _);
        by destruct Hs as (? & ? & ?).
  - intros b ty len Hb Hd. pose proof (decode_hint_len _ _ _ Hd) as Hlen.
    destruct (decode_hint_Ok _ _ _ Hd) as (t & Hin & Ht & ->).
    assert (encode_hint ty (b `mod` 64) = Ok b) as He; [|done].
    apply encode_hint_Ok. exists t. split_and!; [by apply type_map_Some|lia|lia|].
    rewrite hint_split by lia.
    rewrite !elem_of_cons, elem_of_nil in Hin.
    destruct Hin as [?|[?|[?|[]]]]; simplify_eq; divmod.
Qed.

Lemma decode_hint_inverse_witness :
  0 ≤ 8 ≤ 63 ∧ encode_hint "float" 8 = Ok 136.
Proof.
  destruct decode_hint_inverse as (_ & _ & Hinv).
  destruct (Hinv 136 "float"%string 8 ltac:(lia) ltac:(vm_compute; reflexivity))
    as (Hl & He & _).
  split; [exact Hl|exact He].
Defined.

(** ** ValueCodec, read back *)

Lemma bytes_Raise xs : forallb Py.is_byte xs = false → Py.bytes xs = Raise ValueError_bytes.
Proof. intros H. unfold Py.bytes. by rewrite H. Qed.

Lemma decode_item_int_unfold item_len bs :
  decode_item "int" item_len bs = (xs ← Py.bytes bs; PyInt <$> Py.struct_unpack_Q xs).
Proof. unfold decode_item. by rewrite bool_decide_eq_true_2. Qed.

Lemma decode_item_float_unfold item_len bs :
  decode_item "float" item_len bs = (xs ← Py.bytes bs; PyFloat <$> Py.struct_unpack_d xs).
Proof.
  unfold decode_item. rewrite bool_decide_eq_false_2 by done.
  by rewrite bool_decide_eq_true_2.
Qed.

Lemma decode_item_str_unfold item_len bs :
  decode_item "str" item_len bs =
    (xs ← Py.bytes bs; raw ← Py.struct_unpack_s item_len xs; PyStr <$> Py.bytes_decode raw).
Proof.
  unfold decode_item. rewrite !bool_decide_eq_false_2 by done.
  by rewrite bool_decide_eq_true_2.
Qed.

(** Eight byte values are the big-endian bytes of exactly one integer of
    64 bits. *)
Lemma unpack_8_bytes bs :
  forallb Py.is_byte bs = true → length bs = 8%nat →
  0 ≤ Py.be_value bs < 2 ^ 64 ∧ Py.be_bytes 8 (Py.be_value bs) = bs.
Proof.
  intros Hb Hl. pose proof (be_value_bounds bs Hb) as Hr.
  pose proof (be_bytes_be_value bs Hb) as Hi. rewrite Hl in Hr, Hi.
  split; [exact Hr|exact Hi].
Qed.

Lemma decode_fixed_Ok (C : Z → pyval) bs v :
  (xs ← Py.bytes bs;
   C <$> (if (length xs =? 8)%nat then Ok (Py.be_value xs) else Raise StructError)) = Ok v ↔
  forallb Py.is_byte bs = true ∧ length bs = 8%nat
  ∧ ∃ z, v = C z ∧ 0 ≤ z < 2 ^ 64 ∧ Py.be_bytes 8 z = bs.
Proof.
  unfold Py.bytes. split.
  - destruct (forallb Py.is_byte bs) eqn:Hb; [|done]. cbn [mbind result_bind].
    destruct (length bs =? 8)%nat eqn:Hl; [|done]. intros [= <-].
    assert (length bs = 8%nat) as Hl' by lia.
    destruct (unpack_8_bytes bs Hb Hl') as [Hr Hi].
    split_and!; [done|done|]. by exists (Py.be_value bs).
  - intros (Hb & Hl & z & -> & Hz & <-). rewrite be_bytes_is_byte.
    cbn [mbind result_bind]. rewrite be_bytes_length. cbn [Nat.eqb fmap result_fmap].
    by rewrite be_value_be_bytes_8.
Qed.

(** X2. [decode_item] on the types "int" and "float".  It returns a value
    exactly when the payload is eight byte values, whatever [item_len]
    says; the value is then the integer in [0, 2^64) (the float with the
    64-bit pattern) whose big-endian bytes the payload is.  An element that
    is not a byte value raises the [ValueError] of [bytes()] before the
    length is looked at; byte values in another number than eight raise
    [struct.error]. *)
Theorem decode_item_fixed_width :
  (∀ item_len bs v,
     decode_item "int" item_len bs = Ok v ↔
     forallb Py.is_byte bs = true ∧ length bs = 8%nat
     ∧ ∃ z, v = PyInt z ∧ 0 ≤ z < 2 ^ 64 ∧ Py.be_bytes 8 z = bs)
  ∧ (∀ item_len bs v,
       decode_item "float" item_len bs = Ok v ↔
       forallb Py.is_byte bs = true ∧ length bs = 8%nat
       ∧ ∃ bits, v = PyFloat bits ∧ 0 ≤ bits < 2 ^ 64 ∧ Py.be_bytes 8 bits = bs)
  ∧ (∀ ty item_len bs, ty = "int"%string ∨ ty = "float"%string →
       (forallb Py.is_byte bs = false →
        decode_item ty item_len bs = Raise ValueError_bytes)
       ∧ (forallb Py.is_byte bs = true → length bs ≠ 8%nat →
          decode_item ty item_len bs = Raise StructError))
  ∧ (∀ ty item_len bs,
       U8Encoder._decode_item ty item_len bs = decode_item ty item_len bs).
Proof.
  split_and!.
  - intros item_len bs v. rewrite decode_item_int_unfold. apply decode_fixed_Ok.
  - intros item_len bs v. rewrite decode_item_float_unfold. apply decode_fixed_Ok.
  - intros ty item_len bs [-> | ->];
      rewrite ?decode_item_int_unfold, ?decode_item_float_unfold; split.
    + intros Hb. by rewrite bytes_Raise.
    + intros Hb Hl. rewrite bytes_Ok by done. cbn [mbind result_bind].
      unfold Py.struct_unpack_Q. by destruct (length bs =? 8)%nat eqn:E; [lia|].
    + intros Hb. by rewrite bytes_Raise.
    + intros Hb Hl. rewrite bytes_Ok by done. cbn [mbind result_bind].
      unfold Py.struct_unpack_d. by destruct (length bs =? 8)%nat eqn:E; [lia|].
  - done.
Qed.

Lemma decode_item_fixed_width_witness :
  decode_item "int" 20 [0; 0; 0; 0; 0; 0; 1; 0] = Ok (PyInt 256)
  ∧ decode_item "float" 8 [0; 0; 0; 0; 0; 0; 0; 256] = Raise ValueError_bytes
  ∧ decode_item "int" 8 [1; 2; 3] = Raise StructError.
Proof.
  destruct decode_item_fixed_width as (Hint & _ & Herr & _).
  split_and!.
  - apply Hint. split_and!; [reflexivity|reflexivity|].
    exists 256. split_and!; [reflexivity|lia|lia|reflexivity].
  - apply (Herr "float"%string); [by right|reflexivity].
  - apply (Herr "int"%string); [by left|reflexivity|]. simpl. lia.
Defined.

Lemma decode_item_str_Ok item_len bs v :
  decode_item "str" item_len bs = Ok v ↔
  Z.of_nat (length bs) = item_len
  ∧ ∃ s, v = PyStr s ∧ Py.utf8_encode s = Some bs.
Proof.
  rewrite decode_item_str_unfold. split.
  - unfold Py.bytes. destruct (forallb Py.is_byte bs); [|done].
    cbn [mbind result_bind]. unfold Py.struct_unpack_s.
    destruct (item_len <? 0); [done|].
    destruct (Z.of_nat (length bs) =? item_len) eqn:Hl; [|done].
    cbn [mbind result_bind]. unfold Py.bytes_decode.
    destruct (Py.utf8_decode bs) as [s|] eqn:Hs; [|done]. intros [= <-].
    split; [lia|]. exists s. split; [done|]. by apply utf8_encode_decode.
  - intros (<- & s & -> & Hs). rewrite <- decode_item_str_unfold.
    by apply decode_item_str.
Qed.

(** X3. [decode_item] on the type "str" and on other types.  It returns a
    string exactly when the payload has [item_len] elements and is the UTF-8
    encoding of that string, so what it returns encodes back to the payload.
    The failures come in this order: an element that is not a byte value
    ([ValueError] of [bytes()]), a length other than [item_len]
    ([struct.error]), bytes that are not UTF-8 ([UnicodeDecodeError]).  A
    type other than the three raises the [ValueError] of the last branch
    without looking at the payload. *)
Theorem decode_item_str_spec :
  (∀ item_len bs v,
     decode_item "str" item_len bs = Ok v ↔
     Z.of_nat (length bs) = item_len
     ∧ ∃ s, v = PyStr s ∧ Py.utf8_encode s = Some bs)
  ∧ (∀ item_len bs,
       (forallb Py.is_byte bs = false →
        decode_item "str" item_len bs = Raise ValueError_bytes)
       ∧ (forallb Py.is_byte bs = true → Z.of_nat (length bs) ≠ item_len →
          decode_item "str" item_len bs = Raise StructError)
       ∧ (forallb Py.is_byte bs = true → Z.of_nat (length bs) = item_len →
          Py.utf8_decode bs = None →
          decode_item "str" item_len bs = Raise UnicodeDecodeError))
  ∧ (∀ ty item_len bs,
       ty ∉ ["int"%string; "float"%string; "str"%string] →
       decode_item ty item_len bs = Raise ValueError_item_type
       ∧ U8Encoder._decode_item ty item_len bs = Raise ValueError_item_type).
Proof.
  split_and!.
  - apply decode_item_str_Ok.
  - intros item_len bs. rewrite decode_item_str_unfold. split_and!.
    + intros Hb. by rewrite bytes_Raise.
    + intros Hb Hl. rewrite bytes_Ok by done. cbn [mbind result_bind].
      unfold Py.struct_unpack_s. destruct (item_len <? 0); [done|].
      by destruct (Z.of_nat (length bs) =? item_len) eqn:E; [lia|].
    + intros Hb Hl Hs. rewrite bytes_Ok by done. cbn [mbind result_bind].
      unfold Py.struct_unpack_s. destruct (item_len <? 0) eqn:E0; [exfalso; lia|].
      destruct (Z.of_nat (length bs) =? item_len) eqn:E; [|exfalso; lia].
      cbn [mbind result_bind]. unfold Py.bytes_decode. by rewrite Hs.
  - intros ty item_len bs Hty. rewrite class_decode_item.
    rewrite !not_elem_of_cons in Hty. destruct Hty as (? & ? & ? & _).
    unfold decode_item. by rewrite !bool_decide_eq_false_2.
Qed.

Lemma decode_item_str_spec_witness :
  decode_item "str" 3 [0xE5; 0x95; 0x8A] = Ok (PyStr [0x554A])
  ∧ decode_item "str" 2 [0xE5; 0x95; 0x8A] = Raise StructError
  ∧ decode_item "str" 2 [0xC0; 0x80] = Raise UnicodeDecodeError
  ∧ decode_item "bytes" 2 [0xC0; 0x80] = Raise ValueError_item_type.
Proof.
  destruct decode_item_str_spec as (Hok & Herr & Hty).
  split_and!.
  - apply Hok. split; [reflexivity|]. by exists [0x554A].
  - apply (Herr 2 [0xE5; 0x95; 0x8A]); [reflexivity|]. simpl. lia.
  - apply (Herr 2 [0xC0; 0x80]); reflexivity.
  - apply (Hty "bytes"%string 2 [0xC0; 0x80]).
    rewrite !not_elem_of_cons. split_and!; try discriminate. apply not_elem_of_nil.
Defined.

Lemma encode_item_str_Ok s bs :
  encode_item (PyStr s) = Ok bs →
  ∃ ebs, Py.utf8_encode s = Some ebs ∧ (length ebs ≤ 63)%nat
         ∧ bs = (192 + Z.of_nat (length ebs)) :: ebs.
Proof.
  intros H. destruct (Py.utf8_encode s) as [ebs|] eqn:Hs.
  - destruct (decide (length ebs ≤ 63)%nat) as [Hle|Hgt].
    + rewrite (encode_item_str s ebs Hs Hle) in H. injection H as <-. by exists ebs.
    + by rewrite (encode_item_str_long s ebs Hs) in H by lia.
  - cbn [encode_item] in H. unfold Py.str_encode in H. by rewrite Hs in H.
Qed.

Lemma encode_item_int_Ok z bs :
  encode_item (PyInt z) = Ok bs → 0 ≤ z < 2 ^ 64.
Proof.
  intros H. destruct (decide (0 ≤ z < 2 ^ 64)) as [|Hz]; [done|].
  cbn [encode_item] in H. rewrite encode_hint_int_8 in H.
  cbn [mbind result_bind] in H. by rewrite struct_pack_Q_Raise in H.
Qed.

(** A value that encodes is, once a [bool] is read as an integer, a
    supported value with the same encoding. *)
Lemma encodable_canonical v bs :
  well_formed v = true → encode_item v = Ok bs →
  supported (canonical v) = true ∧ encode_item (canonical v) = Ok bs.
Proof.
  intros Hwf Henc. destruct v as [z|bits|s|b|]; cbn [canonical]; [| | | |done].
  - split; [|done]. apply encode_item_int_Ok in Henc. cbn [supported]. lia.
  - done.
  - split; [|done]. destruct (encode_item_str_Ok s bs Henc) as (ebs & Hs & Hl & _).
    cbn [supported]. rewrite Hs. lia.
  - split; [by destruct b|]. exact Henc.
Qed.

(** X4. The round trip of one value, as the tests make it: when
    [encode_item] returns, on a value of any type, [decode_hint] of its
    first byte gives a type and the length of the rest, and [decode_item]
    of that type, that length and the rest gives the value back, a [bool]
    as the integer 0 or 1. *)
Theorem item_round_trip (v : pyval) (bs : list Z) :
  well_formed v = true →
  encode_item v = Ok bs ∨ U8Encoder._encode_item v = Ok bs →
  ∃ h payload ty,
    bs = h :: payload
    ∧ decode_hint h = Ok (ty, Z.of_nat (length payload))
    ∧ decode_item ty (Z.of_nat (length payload)) payload = Ok (canonical v)
    ∧ U8Encoder._decode_hint h = Ok (ty, Z.of_nat (length payload))
    ∧ U8Encoder._decode_item ty (Z.of_nat (length payload)) payload = Ok (canonical v).
Proof.
  rewrite class_encode_item, class_decode_hint, class_decode_item.
  intros Hwf Henc. assert (encode_item v = Ok bs) as Hv by tauto. clear Henc.
  destruct (encodable_canonical v bs Hwf Hv) as [Hsup Hc].
  destruct (decode_item_encoded _ _ Hsup Hc) as (h & payload & ty & -> & _ & Hh & Hi & _).
  by exists h, payload, ty.
Qed.

Lemma item_round_trip_witness :
  ∃ h payload ty,
    [72; 0; 0; 0; 0; 0; 0; 0; 1] = h :: payload
    ∧ decode_hint h = Ok (ty, Z.of_nat (length payload))
    ∧ decode_item ty (Z.of_nat (length payload)) payload = Ok (PyInt 1).
Proof.
  destruct (item_round_trip (PyBool true) [72; 0; 0; 0; 0; 0; 0; 0; 1] eq_refl)
    as (h & payload & ty & Hbs & Hh & Hi & _).
  - left. vm_compute. reflexivity.
  - exists h, payload, ty. split; [exact Hbs|]. split; [exact Hh|exact Hi].
Defined.

(** What [decode_item] returns under a hint byte that announces the payload
    it was given encodes back to that byte and that payload. *)
Lemma encode_item_of_decoded h ty len bs v :
  0 ≤ h ≤ 255 → decode_hint h = Ok (ty, len) → Z.of_nat (length bs) = len →
  decode_item ty len bs = Ok v →
  encode_item v = Ok (h :: bs) ∧ supported v = true.
Proof.
  intros Hh Hd Hl Hi. pose proof (decode_hint_len _ _ _ Hd) as Hlen.
  destruct (decode_hint_Ok _ _ _ Hd) as (t & Hin & Ht & Hm).
  rewrite !elem_of_cons, elem_of_nil in Hin.
  destruct Hin as [Hin|[Hin|[Hin|[]]]]; injection Hin as -> ->.
  - rewrite decode_item_int_unfold in Hi.
    apply (decode_fixed_Ok PyInt) in Hi as (Hb & Hl8 & z & -> & Hz & <-).
    rewrite encode_item_int by done. cbn [supported].
    split; [|lia]. do 2 f_equal. divmod.
  - rewrite decode_item_float_unfold in Hi.
    apply (decode_fixed_Ok PyFloat) in Hi as (Hb & Hl8 & z & -> & Hz & <-).
    rewrite encode_item_float. cbn [supported].
    split; [|lia]. do 2 f_equal. divmod.
  - apply decode_item_str_Ok in Hi as (_ & s & -> & Hs).
    rewrite (encode_item_str s bs Hs) by lia. cbn [supported]. rewrite Hs.
    split; [|lia]. do 2 f_equal. divmod.
Qed.

(** X5. Decoding, then encoding, one value.  When a byte [h] decodes to a
    type and a length, and [decode_item] returns a value from a payload of
    that length, then [encode_item] of the value is [h] followed by that
    payload: a decoded value has one encoding, the one it was read from. *)
Theorem decode_then_encode_item (h : Z) (ty : string) (len : Z) (bs : list Z) (v : pyval) :
  0 ≤ h ≤ 255 →
  decode_hint h = Ok (ty, len) →
  Z.of_nat (length bs) = len →
  decode_item ty len bs = Ok v →
  encode_item v = Ok (h :: bs) ∧ U8Encoder._encode_item v = Ok (h :: bs).
Proof.
  intros Hh Hd Hl Hi. rewrite class_encode_item.
  by destruct (encode_item_of_decoded h ty len bs v Hh Hd Hl Hi).
Qed.

Lemma decode_then_encode_item_witness :
  encode_item (PyStr [0x554A]) = Ok [195; 0xE5; 0x95; 0x8A].
Proof.
  apply (decode_then_encode_item 195 "str"%string 3 [0xE5; 0x95; 0x8A] (PyStr [0x554A]));
    [lia|vm_compute; reflexivity|reflexivity|vm_compute; reflexivity].
Defined.

(** ** RecordCodec, read back *)

Lemma mapM_encode_canonical record parts :
  Forall (λ v, well_formed v = true) record →
  mapM encode_item record = Ok parts →
  mapM encode_item (canonical <$> record) = Ok parts
  ∧ Forall (λ v, supported v = true) (canonical <$> record).
Proof.
  intros Hwf. revert parts. induction Hwf as [|v rest Hv _ IH]; intros parts Hp.
  - by injection Hp as <-.
  - rewrite mapM_cons_result in Hp.
    destruct (encode_item v) as [bs|] eqn:Hbs; [|done]. cbn [mbind result_bind] in Hp.
    destruct (mapM encode_item rest) as [parts'|] eqn:Hrest; [|done].
    injection Hp as <-. destruct (IH parts' eq_refl) as [IHp IHs].
    destruct (encodable_canonical v bs Hv Hbs) as [Hsup Hc].
    rewrite fmap_cons, mapM_cons_result, Hc, IHp. split; [done|].
    by constructor.
Qed.

Lemma encode_record_mapM record r :
  encode_record record = Ok r → ∃ parts, mapM encode_item record = Ok parts.
Proof.
  unfold encode_record. rewrite encode_items_mapM.
  destruct (mapM encode_item record) as [parts|]; [by eexists|done].
Qed.

Lemma encode_record_depends record record' :
  mapM encode_item record = mapM encode_item record' →
  encode_record record = encode_record record'.
Proof. intros H. unfold encode_record. by rewrite !encode_items_mapM, H. Qed.

Lemma decode_record_encoded record r :
  Forall (λ v, supported v = true) record →
  encode_record record = Ok r → decode_record r = Ok record.
Proof.
  intros Hsup Hr. destruct (encode_record_mapM _ _ Hr) as [parts Hp].
  unfold decode_record. rewrite (encode_record_length _ _ Hr). cbn [Nat.eqb negb].
  by rewrite (decode_loop_encode_record record parts r Hsup Hp Hr).
Qed.

Lemma decode_record_encoded_canonical record r :
  Forall (λ v, well_formed v = true) record →
  encode_record record = Ok r → decode_record r = Ok (canonical <$> record).
Proof.
  intros Hwf Hr. destruct (encode_record_mapM _ _ Hr) as [parts Hp].
  destruct (mapM_encode_canonical record parts Hwf Hp) as [Hp' Hsup].
  apply decode_record_encoded; [done|].
  rewrite <- Hr. apply encode_record_depends. by rewrite Hp, Hp'.
Qed.

(** X6. The round trip of a row, for every row that encodes.  Whenever
    [encode_record] returns, [decode_record] of the result returns the row,
    of the same length and in the same order, with every [bool] read back
    as the integer 0 or 1 and every other value unchanged; no bound on the
    size need be assumed, [encode_record] has checked it. *)
Theorem encodable_row_round_trip (record : list pyval) (r : list Z) :
  Forall (λ v, well_formed v = true) record →
  encode_record record = Ok r ∨ U8Encoder.encode_record record = Ok r →
  decode_record r = Ok (canonical <$> record)
  ∧ U8Encoder.decode_record r = Ok (canonical <$> record).
Proof.
  rewrite class_encode_record, class_decode_record.
  intros Hwf Hr. assert (encode_record record = Ok r) as Hr' by tauto.
  by rewrite (decode_record_encoded_canonical record r Hwf Hr').
Qed.

Lemma encodable_row_round_trip_witness :
  decode_record ([72; 0; 0; 0; 0; 0; 0; 0; 1; 192] ++ replicate 246 0)
  = Ok [PyInt 1; PyStr []].
Proof.
  apply (encodable_row_round_trip [PyBool true; PyStr []]).
  - repeat constructor.
  - left. vm_compute. reflexivity.
Defined.

(** X7. Two rows with the same record are the same row: [encode_record] is
    injective on the rows it accepts, up to reading a [bool] as an
    integer. *)
Theorem encode_record_injective (record1 record2 : list pyval) (r : list Z) :
  Forall (λ v, well_formed v = true) record1 →
  Forall (λ v, well_formed v = true) record2 →
  encode_record record1 = Ok r → encode_record record2 = Ok r →
  canonical <$> record1 = canonical <$> record2.
Proof.
  intros Hwf1 Hwf2 H1 H2.
  pose proof (decode_record_encoded_canonical _ _ Hwf1 H1) as Hd1.
  pose proof (decode_record_encoded_canonical _ _ Hwf2 H2) as Hd2.
  rewrite Hd1 in Hd2. by injection Hd2.
Qed.

Lemma encode_record_injective_witness :
  canonical <$> [PyBool false; PyInt 7] = canonical <$> [PyInt 0; PyInt 7].
Proof.
  apply (encode_record_injective [PyBool false; PyInt 7] [PyInt 0; PyInt 7]
           ([72; 0; 0; 0; 0; 0; 0; 0; 0; 72; 0; 0; 0; 0; 0; 0; 0; 7] ++ replicate 238 0)).
  - repeat constructor.
  - repeat constructor.
  - vm_compute. reflexivity.
  - vm_compute. reflexivity.
Defined.

Lemma decode_item_supported ty len bs v :
  0 ≤ len ≤ 63 → decode_item ty len bs = Ok v → supported v = true.
Proof.
  intros Hlen Hi. unfold decode_item in Hi.
  destruct (bool_decide (ty = "int"%string)) eqn:E1.
  { apply (decode_fixed_Ok PyInt) in Hi as (_ & _ & z & -> & Hz & _).
    cbn [supported]. lia. }
  destruct (bool_decide (ty = "float"%string)) eqn:E2.
  { apply (decode_fixed_Ok PyFloat) in Hi as (_ & _ & z & -> & Hz & _).
    cbn [supported]. lia. }
  destruct (bool_decide (ty = "str"%string)) eqn:E3; [|done].
  rewrite <- decode_item_str_unfold in Hi.
  apply decode_item_str_Ok in Hi as (Hl & s & -> & Hs).
  cbn [supported]. rewrite Hs. lia.
Qed.

Lemma decode_loop_supported r i acc vs p :
  Forall (λ v, supported v = true) acc →
  decode_loop r i acc = Ok (vs, p) →
  Forall (λ v, supported v = true) vs.
Proof.
  revert vs p. apply (decode_loop_ind r (λ i acc res,
    ∀ vs p, Forall (λ v, supported v = true) acc → res = Ok (vs, p) →
            Forall (λ v, supported v = true) vs)).
  - by intros ?? _ ?? ? [= <- _].
  - done.
  - by intros ?? _ _ ?? ? [= <- _].
  - intros i' acc' n v _ Hbody IH vs p Hacc Hres.
    pose proof (loop_body_cases r i') as Hc. rewrite Hbody in Hc.
    destruct Hc as (b & ty & _ & _ & _ & Hn & Hitem).
    apply (IH vs p); [|done]. apply Forall_app. split; [done|].
    constructor; [|done]. eapply decode_item_supported; [|done]. lia.
Qed.

(** X8. Whatever [decode_record] returns is made of supported values only:
    integers in [0, 2^64), floats, strings whose UTF-8 encoding has at most
    63 bytes.  It returns no [bool], no [None], no string with a surrogate
    code point, whatever the record holds. *)
Theorem decode_record_supported (r : list Z) (vs : list pyval) :
  decode_record r = Ok vs ∨ U8Encoder.decode_record r = Ok vs →
  Forall (λ v, supported v = true) vs.
Proof.
  rewrite class_decode_record. intros Hr.
  assert (decode_record r = Ok vs) as Hd by tauto. clear Hr.
  unfold decode_record in Hd. destruct (negb _); [done|].
  destruct (decode_loop r 0 []) as [[vs' p]|] eqn:Hloop; [|done].
  injection Hd as <-. by eapply decode_loop_supported.
Qed.

Lemma decode_record_supported_witness :
  Forall (λ v, supported v = true) [PyFloat 1; PyStr [0x554A]].
Proof.
  apply (decode_record_supported
           ([136; 0; 0; 0; 0; 0; 0; 0; 1; 195; 0xE5; 0x95; 0x8A; 0; 9; 9] ++ replicate 240 0)).
  left. vm_compute. reflexivity.
Defined.

Lemma slice_cons_app (r : list Z) i n p b :
  r !! i = Some b → (i + n + 1 ≤ p)%nat →
  slice r i p = b :: slice r (i + 1) (i + 1 + n) ++ slice r (i + n + 1) p.
Proof.
  intros Hb Hp. unfold slice.
  rewrite (drop_S r b i Hb).
  replace (p - i)%nat with (S (n + (p - (i + n + 1))))%nat by lia.
  cbn [take]. f_equal.
  replace (i + 1 + n - (i + 1))%nat with n by lia.
  rewrite <- take_take_drop, drop_drop. do 3 f_equal; lia.
Qed.

Lemma slice_length (r : list Z) a b :
  (b ≤ length r)%nat → length (slice r a b) = (b - a)%nat.
Proof. intros H. unfold slice. rewrite length_take, length_drop. lia. Qed.

Lemma forallb_lookup (f : Z → bool) l i x :
  forallb f l = true → l !! i = Some x → f x = true.
Proof.
  intros H Hx. rewrite forallb_forall in H. apply H.
  apply list_elem_of_In. by eapply list_elem_of_lookup_2.
Qed.

(** The values decoded between two offsets encode to the bytes between
    them. *)
Lemma decode_loop_reencode r :
  forallb Py.is_byte r = true →
  ∀ i acc vs p,
    decode_loop r i acc = Ok (vs, p) → (p ≤ length r)%nat →
    ∃ items parts,
      vs = acc ++ items ∧ mapM encode_item items = Ok parts
      ∧ mjoin parts = slice r i p.
Proof.
  intros Hbytes. apply (decode_loop_ind r (λ i acc res,
    ∀ vs p, res = Ok (vs, p) → (p ≤ length r)%nat →
      ∃ items parts,
        vs = acc ++ items ∧ mapM encode_item items = Ok parts
        ∧ mjoin parts = slice r i p)).
  - intros i acc _ vs p [= <- <-] _. exists [], [].
    rewrite app_nil_r. unfold slice. by rewrite Nat.sub_diag.
  - done.
  - intros i acc _ _ vs p [= <- <-] _. exists [], [].
    rewrite app_nil_r. unfold slice. by rewrite Nat.sub_diag.
  - intros i acc n v Hi Hbody IH vs p Hres Hp.
    pose proof (decode_loop_mono _ _ _ _ _ Hres) as Hmono.
    destruct (IH vs p Hres Hp) as (items & parts & -> & Hparts & Hjoin).
    pose proof (loop_body_cases r i) as Hc. rewrite Hbody in Hc.
    destruct Hc as (b & ty & Hb & Hnz & Hhint & Hn & Hitem).
    assert (0 ≤ b ≤ 255) as Hbyte.
    { pose proof (forallb_lookup _ _ _ _ Hbytes Hb) as H. apply is_byte_range in H. lia. }
    destruct (encode_item_of_decoded b ty (Z.of_nat n)
                (slice r (i + 1) (i + 1 + n)) v Hbyte Hhint) as [Henc _];
      [rewrite slice_length by lia; lia|done|].
    exists (v :: items), ((b :: slice r (i + 1) (i + 1 + n)) :: parts).
    split_and!.
    + by rewrite <- app_assoc.
    + by rewrite mapM_cons_result, Henc, Hparts.
    + change (mjoin (?x :: parts)) with (x ++ mjoin parts). rewrite Hjoin.
      by rewrite (slice_cons_app r i n p b).
Qed.

(** X9. Encoding what was decoded.  On a record of 256 byte values from
    which [decode_record] returns, its loop having stopped at an offset [p]
    of at most 256, [encode_record] of the values returned gives back the
    first [p] bytes of the record followed by zeros: the record itself when
    its padding is zero, and otherwise the record with its padding cleared,
    which decodes to the same values. *)
Theorem encode_decoded_record (r : list Z) (vs : list pyval) (p : nat) :
  length r = 256%nat →
  forallb Py.is_byte r = true →
  decode_loop r 0 [] = Ok (vs, p) →
  (p ≤ 256)%nat →
  decode_record r = Ok vs
  ∧ encode_record vs = Ok (take p r ++ replicate (256 - p) 0)
  ∧ U8Encoder.encode_record vs = Ok (take p r ++ replicate (256 - p) 0)
  ∧ decode_record (take p r ++ replicate (256 - p) 0) = Ok vs
  ∧ (drop p r = replicate (256 - p) 0 → encode_record vs = Ok r).
Proof.
  intros Hr Hbytes Hloop Hp. rewrite class_encode_record.
  destruct (decode_loop_reencode r Hbytes 0%nat [] vs p Hloop ltac:(lia))
    as (items & parts & Hvs & Hparts & Hjoin).
  cbn [app] in Hvs. subst items.
  assert (mjoin parts = take p r) as Htake.
  { rewrite Hjoin. unfold slice. by rewrite Nat.sub_0_r, drop_0. }
  assert (length (mjoin parts) = p) as Hlen.
  { rewrite Htake, length_take. lia. }
  assert (encode_record vs = Ok (take p r ++ replicate (256 - p) 0)) as Henc.
  { rewrite (encode_record_Ok vs parts Hparts) by lia. by rewrite Hlen, Htake. }
  assert (decode_record r = Ok vs) as Hdec.
  { unfold decode_record. by rewrite Hr, Hloop. }
  split_and!; [done|done|done| |].
  - apply decode_record_encoded; [|done].
    by eapply (decode_loop_supported r 0%nat []).
  - intros Hpad. rewrite Henc, <- Hpad. by rewrite take_drop.
Qed.

Lemma encode_decoded_record_witness :
  encode_record [PyInt 42] = Ok ([72; 0; 0; 0; 0; 0; 0; 0; 42; 0] ++ replicate 246 0).
Proof.
  apply (encode_decoded_record
           ([72; 0; 0; 0; 0; 0; 0; 0; 42; 0] ++ replicate 246 7) [PyInt 42] 9%nat);
    vm_compute; (reflexivity || lia).
Defined.

(** ** What the codec raises *)

Lemma mapM_Raise {A B} (f : A → result B) l e :
  mapM f l = Raise e ↔
  ∃ l1 x l2 k, l = l1 ++ x :: l2 ∧ mapM f l1 = Ok k ∧ f x = Raise e.
Proof.
  induction l as [|x l IH].
  - split; [done|]. intros (l1 & ? & ? & ? & H & _). by destruct l1.
  - rewrite mapM_cons_result. split.
    + destruct (f x) as [y|e'] eqn:Hx; cbn [mbind result_bind].
      * destruct (mapM f l) as [k|e'] eqn:Hl; [done|].
        cbn [mbind result_bind]. intros [= ->].
        destruct (proj1 IH eq_refl) as (l1 & x' & l2 & k & -> & Hk & Hx').
        exists (x :: l1), x', l2, (y :: k). split_and!; [done| |done].
        by rewrite mapM_cons_result, Hx, Hk.
      * intros [= ->]. by exists [], x, l, [].
    + intros (l1 & x' & l2 & k & Heq & Hk & Hx'). destruct l1 as [|x1 l1].
      * injection Heq as -> ->. by rewrite Hx'.
      * injection Heq as -> ->. rewrite mapM_cons_result in Hk.
        destruct (f x1) as [y|]; [|done]. cbn [mbind result_bind] in *.
        destruct (mapM f l1) as [k1|] eqn:Hk1; [|done].
        assert (mapM f (l1 ++ x' :: l2) = Raise e) as ->; [|done].
        apply IH. by exists l1, x', l2, k1.
Qed.

(** The values on which [encode_item] raises, and what it raises. *)
Lemma encode_item_Raise v e :
  encode_item v = Raise e →
  (v = PyNone ∧ e = ValueError_item_kind)
  ∨ (∃ z, v = PyInt z ∧ ¬ (0 ≤ z < 2 ^ 64) ∧ e = StructError)
  ∨ (∃ s, v = PyStr s ∧ Py.utf8_encode s = None ∧ e = UnicodeEncodeError)
  ∨ (∃ s bs, v = PyStr s ∧ Py.utf8_encode s = Some bs ∧ (63 < length bs)%nat
             ∧ e = ValueError_data_bits).
Proof.
  intros H. destruct v as [z|bits|s|b|].
  - right; left. exists z. destruct (decide (0 ≤ z < 2 ^ 64)) as [Hz|Hz].
    + by rewrite encode_item_int in H.
    + cbn [encode_item] in H. rewrite encode_hint_int_8 in H.
      cbn [mbind result_bind] in H. rewrite struct_pack_Q_Raise in H by done.
      by injection H as <-.
  - by rewrite encode_item_float in H.
  - destruct (Py.utf8_encode s) as [bs|] eqn:Hs.
    + destruct (decide (length bs ≤ 63)%nat) as [Hle|Hgt].
      * by rewrite (encode_item_str s bs) in H.
      * rewrite (encode_item_str_long s bs) in H by (done || lia).
        injection H as <-. do 3 right. exists s, bs. split_and!; (done || lia).
    + cbn [encode_item] in H. unfold Py.str_encode in H. rewrite Hs in H.
      injection H as <-. right; right; left. by exists s.
  - by destruct b.
  - injection H as <-. by left.
Qed.

(** X10. The failures of [encode_record].  The exception of the first value
    that does not encode is the one raised, whatever the values after it
    and however long the values before it: the check of the 256 bytes comes
    after the loop.  A value fails only if it is [None] (another type), an
    integer outside [0, 2^64), a string with a code point that has no UTF-8
    encoding, or a string of more than 63 bytes; a float and a [bool] never
    fail.  Nothing else is raised than these four exceptions and the one
    of the length check. *)
Theorem encode_record_errors :
  (∀ before v after k e,
     mapM encode_item before = Ok k → encode_item v = Raise e →
     encode_record (before ++ v :: after) = Raise e
     ∧ U8Encoder.encode_record (before ++ v :: after) = Raise e)
  ∧ (∀ record e,
       encode_record record = Raise e → e ≠ ValueError_too_long →
       ∃ before v after k,
         record = before ++ v :: after
         ∧ mapM encode_item before = Ok k ∧ encode_item v = Raise e
         ∧ ((v = PyNone ∧ e = ValueError_item_kind)
            ∨ (∃ z, v = PyInt z ∧ ¬ (0 ≤ z < 2 ^ 64) ∧ e = StructError)
            ∨ (∃ s, v = PyStr s ∧ Py.utf8_encode s = None ∧ e = UnicodeEncodeError)
            ∨ (∃ s bs, v = PyStr s ∧ Py.utf8_encode s = Some bs
                       ∧ (63 < length bs)%nat ∧ e = ValueError_data_bits)))
  ∧ (∀ record e,
       encode_record record = Raise e →
       e ∈ [ValueError_item_kind; StructError; UnicodeEncodeError;
            ValueError_data_bits; ValueError_too_long]).
Proof.
  rewrite class_encode_record.
  assert (∀ record e,
       encode_record record = Raise e → e ≠ ValueError_too_long →
       ∃ before v after k,
         record = before ++ v :: after
         ∧ mapM encode_item before = Ok k ∧ encode_item v = Raise e) as Hfirst.
  { intros record e Hr Hne. destruct (mapM encode_item record) as [parts|e'] eqn:Hp.
    - destruct (decide (length (mjoin parts) ≤ 256)%nat) as [Hle|Hgt].
      + by rewrite (encode_record_Ok _ _ Hp Hle) in Hr.
      + rewrite (encode_record_too_long _ parts) in Hr by (done || lia).
        by injection Hr as <-.
    - rewrite (encode_record_item_raises _ _ Hp) in Hr. injection Hr as ->.
      by apply mapM_Raise in Hp. }
  split_and!.
  - intros before v after k e Hk Hv.
    assert (encode_record (before ++ v :: after) = Raise e); [|done].
    apply encode_record_item_raises. apply mapM_Raise. by exists before, v, after, k.
  - intros record e Hr Hne.
    destruct (Hfirst record e Hr Hne) as (before & v & after & k & -> & Hk & Hv).
    exists before, v, after, k. split_and!; [done|done|done|].
    by apply encode_item_Raise.
  - intros record e Hr. destruct (decide (e = ValueError_too_long)) as [->|Hne].
    + rewrite !elem_of_cons. tauto.
    + destruct (Hfirst record e Hr Hne) as (before & v & after & k & -> & Hk & Hv).
      apply encode_item_Raise in Hv. rewrite !elem_of_cons.
      destruct Hv as [[_ ->]|[(? & _ & _ & ->)|[(? & _ & _ & ->)|(? & ? & _ & _ & _ & ->)]]];
        tauto.
Qed.

Lemma encode_record_errors_witness :
  encode_record (replicate 40 (PyInt 1) ++ PyNone :: [PyInt (-1)])
  = Raise ValueError_item_kind.
Proof.
  destruct encode_record_errors as (Hfirst & _).
  refine (proj1 (Hfirst (replicate 40 (PyInt 1)) PyNone [PyInt (-1)]
                   (replicate 40 [72; 0; 0; 0; 0; 0; 0; 0; 1])
                   ValueError_item_kind _ _)).
  - vm_compute. reflexivity.
  - reflexivity.
Defined.

Lemma decode_hint_Raise b e : decode_hint b = Raise e → e = ValueError_type_code.
Proof. unfold decode_hint. case_match; [done|]. by intros [= <-]. Qed.

Lemma decode_item_Raise ty len bs e :
  ty ∈ ["int"%string; "float"%string; "str"%string] →
  decode_item ty len bs = Raise e →
  e ∈ [ValueError_bytes; StructError; UnicodeDecodeError].
Proof.
  intros Hty. rewrite !elem_of_cons, elem_of_nil in Hty. rewrite !elem_of_cons.
  destruct Hty as [->|[->|[->|[]]]];
    rewrite ?decode_item_int_unfold, ?decode_item_float_unfold, ?decode_item_str_unfold;
    unfold Py.bytes, Py.struct_unpack_Q, Py.struct_unpack_d, Py.struct_unpack_s,
      Py.bytes_decode;
    repeat (case_match; cbn [mbind result_bind fmap result_fmap]; try done);
    intros [= <-]; tauto.
Qed.

Lemma loop_body_Raise r i e :
  loop_body r i = Raise e →
  e ∈ [IndexError; ValueError_type_code; ValueError_bytes; StructError;
       UnicodeDecodeError].
Proof.
  unfold loop_body. rewrite !elem_of_cons.
  destruct (r !! i) as [b|]; [|intros [= <-]; tauto].
  destruct (b =? 0); [done|].
  destruct (decode_hint b) as [[ty len]|e'] eqn:Hh; cbn [mbind result_bind].
  - destruct (decode_item ty len _) as [v|e'] eqn:Hi; [done|]. intros [= ->].
    destruct (decode_hint_Ok _ _ _ Hh) as (t & Hin & _).
    assert (ty ∈ ["int"%string; "float"%string; "str"%string]) as Hty.
    { rewrite !elem_of_cons, elem_of_nil in Hin. rewrite !elem_of_cons.
      destruct Hin as [?|[?|[?|[]]]]; simplify_eq; tauto. }
    pose proof (decode_item_Raise _ _ _ _ Hty Hi) as He.
    rewrite !elem_of_cons, elem_of_nil in He. tauto.
  - intros [= ->]. apply decode_hint_Raise in Hh. tauto.
Qed.

Lemma decode_loop_Raise r i acc e :
  decode_loop r i acc = Raise e →
  e ∈ [IndexError; ValueError_type_code; ValueError_bytes; StructError;
       UnicodeDecodeError].
Proof.
  revert e. apply (decode_loop_ind r (λ i acc res, ∀ e, res = Raise e →
    e ∈ [IndexError; ValueError_type_code; ValueError_bytes; StructError;
         UnicodeDecodeError])); try done.
  intros ??? _ Hbody e' [= <-]. by eapply loop_body_Raise.
Qed.

(** X11. The failures of [decode_record].  It raises the [ValueError] of
    the length check exactly on the lists that do not have 256 elements,
    before it looks at any of them.  On a list of 256 elements it raises
    nothing but the [ValueError] of [decode_hint] (a hint byte with the two
    tag bits at 0, such as 1..63), the [ValueError] of [bytes()] (a payload
    element that is not a byte value), [struct.error] (a string cut short
    by the end of the record, a number that does not get 8 bytes) and
    [UnicodeDecodeError]: the branch of [decode_item] for unknown types is
    never reached, and no index is out of range.  A record that starts
    with the byte 0 is the empty row. *)
Theorem decode_record_errors :
  (∀ r, decode_record r = Raise ValueError_length ↔ length r ≠ 256%nat)
  ∧ (∀ r e, decode_record r = Raise e →
       e ∈ [ValueError_length; ValueError_type_code; ValueError_bytes;
            StructError; UnicodeDecodeError])
  ∧ (∀ r b, length r = 256%nat → r !! 0%nat = Some b →
       b ≠ 0 → (b `div` 64) `mod` 4 = 0 →
       decode_record r = Raise ValueError_type_code)
  ∧ (∀ r, length r = 256%nat → r !! 0%nat = Some 0 → decode_record r = Ok [])
  ∧ (∀ r, U8Encoder.decode_record r = decode_record r).
Proof.
  assert (∀ r e, length r = 256%nat → decode_record r = Raise e →
            e ∈ [ValueError_type_code; ValueError_bytes; StructError;
                 UnicodeDecodeError]) as Hloop.
  { intros r e Hr Hd. unfold decode_record in Hd. rewrite Hr in Hd.
    cbn [Nat.eqb negb] in Hd.
    pose proof (decode_loop_exit r Hr 0%nat []) as Hexit.
    destruct (decode_loop r 0 []) as [[vs p]|e'] eqn:Hl; [done|].
    injection Hd as ->. apply decode_loop_Raise in Hl.
    rewrite !elem_of_cons, elem_of_nil in Hl. rewrite !elem_of_cons. tauto. }
  split_and!.
  - intros r. split.
    + intros Hd Hr. specialize (Hloop r _ Hr Hd).
      rewrite !elem_of_cons, elem_of_nil in Hloop.
      destruct Hloop as [?|[?|[?|[?|[]]]]]; done.
    + intros Hr. unfold decode_record.
      by destruct (length r =? 256)%nat eqn:E; [lia|].
  - intros r e Hd. destruct (decide (length r = 256%nat)) as [Hr|Hr].
    + specialize (Hloop r e Hr Hd). rewrite !elem_of_cons in *. tauto.
    + unfold decode_record in Hd.
      destruct (length r =? 256)%nat eqn:E; [lia|]. injection Hd as <-.
      rewrite !elem_of_cons. tauto.
  - intros r b Hr Hb Hnz Htag. unfold decode_record. rewrite Hr. cbn [Nat.eqb negb].
    rewrite decode_loop_eq, decide_True by lia. unfold loop_body. rewrite Hb.
    destruct (b =? 0) eqn:E; [lia|].
    rewrite decode_hint_arith, Htag. reflexivity.
  - intros r Hr Hb. unfold decode_record. rewrite Hr. cbn [Nat.eqb negb].
    rewrite decode_loop_eq, decide_True by lia. unfold loop_body. by rewrite Hb.
  - apply class_decode_record.
Qed.

Lemma decode_record_errors_witness :
  decode_record (63 :: replicate 255 0) = Raise ValueError_type_code
  ∧ decode_record (0 :: replicate 255 9) = Ok [].
Proof.
  destruct decode_record_errors as (_ & _ & Htag & Hzero & _).
  split.
  - apply (Htag (63 :: replicate 255 0) 63); (reflexivity || lia).
  - apply (Hzero (0 :: replicate 255 9)); reflexivity.
Defined.

(** ** Tables, read back *)

Lemma mapM_decode_encoded rows recs :
  Forall (λ row, Forall (λ v, well_formed v = true) row) rows →
  mapM encode_record rows = Ok recs →
  mapM decode_record recs = Ok (fmap (M:=list) canonical <$> rows).
Proof.
  intros Hwf. revert recs. induction Hwf as [|row rows Hrow _ IH]; intros recs Hrecs.
  - by injection Hrecs as <-.
  - rewrite mapM_cons_result in Hrecs.
    destruct (encode_record row) as [r|] eqn:Hr; [|done]. cbn [mbind result_bind] in Hrecs.
    destruct (mapM encode_record rows) as [recs'|]; [|done]. injection Hrecs as <-.
    rewrite mapM_cons_result, (decode_record_encoded_canonical row r Hrow Hr).
    cbn [mbind result_bind]. by rewrite (IH recs' eq_refl).
Qed.

(** X12. A table through U8Encoder.py and back.  Whenever [encode_database]
    returns, [decode_database] of the result is the call of [pd.DataFrame]
    on the rows that [iterrows] had yielded, in the same order, with the
    list [columns.tolist()] had returned as column names ([bool]s as the
    integers 0 and 1): it returns what that call returns and raises what it
    raises, and no record fails to decode. *)
Theorem database_round_trip {Frame} {C : DataFrameConstructor Frame}
    (df : DataFrame) (encoded_df : EncodedFrame) :
  Forall (λ v, well_formed v = true) (columns_tolist df) →
  Forall (λ row, Forall (λ v, well_formed v = true) row) (iterrows df) →
  encode_database df = Ok encoded_df →
  decode_database encoded_df
  = pd_DataFrame (fmap (M:=list) canonical <$> iterrows df)
      (Some (canonical <$> columns_tolist df)).
Proof.
  intros Hcols Hrows Henc. unfold encode_database in Henc.
  destruct (encode_record (columns_tolist df)) as [h|] eqn:Hh; [|done].
  cbn [mbind result_bind] in Henc.
  destruct (mapM encode_record (iterrows df)) as [recs|] eqn:Hrecs; [|done].
  injection Henc as <-. cbn [app]. rewrite decode_database_cons.
  rewrite (decode_record_encoded_canonical _ h Hcols Hh). cbn [mbind result_bind].
  by rewrite (mapM_decode_encoded (iterrows df) recs Hrows Hrecs).
Qed.

(** The table with columns ["a", "b"] and rows [[1, "x"], [2, "y"]], with a
    constructor that returns its arguments. *)
Lemma database_round_trip_witness :
  decode_database (C := λ data columns, Ok (data, columns))
    [[193; 97; 193; 98] ++ replicate 252 0;
     [72; 0; 0; 0; 0; 0; 0; 0; 1; 193; 120] ++ replicate 245 0;
     [72; 0; 0; 0; 0; 0; 0; 0; 2; 193; 121] ++ replicate 245 0]
  = Ok ([[PyInt 1; PyStr [120]]; [PyInt 2; PyStr [121]]], Some [PyStr [97]; PyStr [98]]).
Proof.
  apply (database_round_trip (C := λ data columns, Ok (data, columns))
           (observed [PyStr [97]; PyStr [98]]
              [[PyInt 1; PyStr [120]]; [PyInt 2; PyStr [121]]])).
  - repeat constructor.
  - repeat constructor.
  - vm_compute. reflexivity.
Defined.

(** X13. A table through the class of u8_encode.py and back.  Whenever its
    [encode_database] returns, there are as many records as rows and its
    [decode_database] of them is the call of [pd.DataFrame] on the rows
    that [iterrows] had yielded, without column names: the labels of the
    frame that was encoded are never read, so they are not kept and need
    not be encodable. *)
Theorem class_table_round_trip {Frame} {C : DataFrameConstructor Frame}
    (df : DataFrame) (encoded_df : EncodedFrame) :
  Forall (λ row, Forall (λ v, well_formed v = true) row) (iterrows df) →
  U8Encoder.encode_database df = Ok encoded_df →
  U8Encoder.decode_database encoded_df
  = pd_DataFrame (fmap (M:=list) canonical <$> iterrows df) None
  ∧ length encoded_df = length (iterrows df)
  ∧ ∀ labels, U8Encoder.encode_database (observed labels (iterrows df)) = Ok encoded_df.
Proof.
  intros Hrows Henc. unfold U8Encoder.encode_database in Henc.
  rewrite class_encode_record in Henc. rewrite class_decode_database_eq.
  rewrite (mapM_decode_encoded (iterrows df) encoded_df Hrows Henc).
  split_and!; [done| |].
  - apply mapM_Ok in Henc. symmetry. by eapply Forall2_length.
  - intros labels. unfold U8Encoder.encode_database. by rewrite class_encode_record.
Qed.

Lemma class_table_round_trip_witness :
  U8Encoder.decode_database (C := λ data columns, Ok (data, columns))
    [[72; 0; 0; 0; 0; 0; 0; 0; 1] ++ replicate 247 0]
  = Ok ([[PyInt 1]], None).
Proof.
  refine (proj1 (class_table_round_trip (C := λ data columns, Ok (data, columns))
                   (observed [PyNone] [[PyInt 1]]) _ _ _)).
  - repeat constructor.
  - vm_compute. reflexivity.
Defined.

(** X14. Records written by one copy and read by the other.  The class of
    u8_encode.py reads what U8Encoder.py wrote as rows only, the column
    names being the first of them, one row more than [iterrows] had
    yielded.  U8Encoder.py reads what the class wrote with the first row as
    column names, one row fewer, and raises [IndexError] when there was no
    row. *)
Theorem database_across_copies {Frame} {C : DataFrameConstructor Frame}
    (df : DataFrame) (encoded_df : EncodedFrame) :
  Forall (λ v, well_formed v = true) (columns_tolist df) →
  Forall (λ row, Forall (λ v, well_formed v = true) row) (iterrows df) →
  (encode_database df = Ok encoded_df →
   U8Encoder.decode_database encoded_df
   = pd_DataFrame
       ((canonical <$> columns_tolist df) :: (fmap (M:=list) canonical <$> iterrows df))
       None)
  ∧ (U8Encoder.encode_database df = Ok encoded_df →
     decode_database encoded_df
     = match iterrows df with
       | [] => Raise IndexError
       | row :: rows =>
           pd_DataFrame (fmap (M:=list) canonical <$> rows) (Some (canonical <$> row))
       end).
Proof.
  intros Hcols Hrows. split.
  - intros Henc. unfold encode_database in Henc.
    destruct (encode_record (columns_tolist df)) as [h|] eqn:Hh; [|done].
    cbn [mbind result_bind] in Henc.
    destruct (mapM encode_record (iterrows df)) as [recs|] eqn:Hrecs; [|done].
    injection Henc as <-. rewrite class_decode_database_eq.
    cbn [app]. rewrite mapM_cons_result.
    rewrite (decode_record_encoded_canonical _ h Hcols Hh). cbn [mbind result_bind].
    by rewrite (mapM_decode_encoded (iterrows df) recs Hrows Hrecs).
  - intros Henc. unfold U8Encoder.encode_database in Henc.
    rewrite class_encode_record in Henc.
    destruct (iterrows df) as [|row rows] eqn:Hdata.
    + by injection Henc as <-.
    + rewrite mapM_cons_result in Henc.
      destruct (encode_record row) as [r|] eqn:Hr; [|done].
      cbn [mbind result_bind] in Henc.
      destruct (mapM encode_record rows) as [recs|] eqn:Hrecs; [|done].
      injection Henc as <-. apply Forall_cons in Hrows as [Hrow Hrows].
      rewrite decode_database_cons, (decode_record_encoded_canonical row r Hrow Hr).
      cbn [mbind result_bind]. by rewrite (mapM_decode_encoded rows recs Hrows Hrecs).
Qed.

Lemma database_across_copies_witness :
  U8Encoder.decode_database (C := λ data columns, Ok (data, columns))
    [[193; 97] ++ replicate 254 0; [72; 0; 0; 0; 0; 0; 0; 0; 1] ++ replicate 247 0]
  = Ok ([[PyStr [97]]; [PyInt 1]], None).
Proof.
  refine (proj1 (database_across_copies (C := λ data columns, Ok (data, columns))
                   (observed [PyStr [97]] [[PyInt 1]]) _ _ _) _).
  - repeat constructor.
  - repeat constructor.
  - vm_compute. reflexivity.
Defined.

(** ** What a record is made of *)

Lemma encode_item_is_byte v bs :
  encode_item v = Ok bs → forallb Py.is_byte bs = true.
Proof.
  intros H. destruct v as [z|bits|s|b|]; [| | | |done].
  - pose proof (encode_item_int_Ok z bs H) as Hz.
    rewrite encode_item_int in H by done. injection H as <-.
    cbn [forallb]. by rewrite be_bytes_is_byte.
  - rewrite encode_item_float in H. injection H as <-.
    cbn [forallb]. by rewrite be_bytes_is_byte.
  - destruct (encode_item_str_Ok s bs H) as (ebs & Hs & Hl & ->).
    cbn [forallb]. rewrite (utf8_encode_is_byte s ebs Hs).
    unfold Py.is_byte. lia.
  - assert (encode_item (PyInt (if b then 1 else 0)) = Ok bs) as H' by exact H.
    rewrite encode_item_int in H' by (destruct b; lia). injection H' as <-.
    cbn [forallb]. by rewrite be_bytes_is_byte.
Qed.

Lemma mapM_encode_item_is_byte record parts :
  mapM encode_item record = Ok parts → forallb Py.is_byte (mjoin parts) = true.
Proof.
  revert parts. induction record as [|v rest IH]; intros parts Hp.
  - by injection Hp as <-.
  - rewrite mapM_cons_result in Hp.
    destruct (encode_item v) as [bs|] eqn:Hv; [|done]. cbn [mbind result_bind] in Hp.
    destruct (mapM encode_item rest) as [parts'|]; [|done]. injection Hp as <-.
    change (mjoin (bs :: parts')) with (bs ++ mjoin parts').
    by rewrite forallb_app, (encode_item_is_byte v bs Hv), (IH parts' eq_refl).
Qed.

Lemma forallb_replicate_zero n : forallb Py.is_byte (replicate n 0) = true.
Proof. induction n as [|n IH]; [done|]. cbn [replicate forallb]. by rewrite IH. Qed.

(** X15. What [encode_record] returns is a list of 256 byte values, each in
    0..255, that [bytes()] accepts; on it the loop of [decode_record] stops
    at the end of the encoded values, at an offset of at most 256, and all
    that follows is zero. *)
Theorem encode_record_bytes (record : list pyval) (r : list Z) :
  encode_record record = Ok r ∨ U8Encoder.encode_record record = Ok r →
  length r = 256%nat
  ∧ forallb Py.is_byte r = true
  ∧ Py.bytes r = Ok r
  ∧ ∃ p, (p ≤ 256)%nat
         ∧ drop p r = replicate (256 - p) 0
         ∧ (Forall (λ v, well_formed v = true) record →
            decode_loop r 0 [] = Ok (canonical <$> record, p)).
Proof.
  rewrite class_encode_record. intros Hor.
  assert (encode_record record = Ok r) as Hr by tauto. clear Hor.
  destruct (encode_record_mapM _ _ Hr) as [parts Hp].
  destruct (decide (length (mjoin parts) ≤ 256)%nat) as [Hle|Hgt];
    [|by rewrite (encode_record_too_long _ parts) in Hr by (done || lia)].
  pose proof Hr as Hr'. rewrite (encode_record_Ok _ _ Hp Hle) in Hr'.
  injection Hr' as <-.
  assert (forallb Py.is_byte (mjoin parts ++ replicate (256 - length (mjoin parts)) 0)
          = true) as Hbytes.
  { by rewrite forallb_app, (mapM_encode_item_is_byte _ _ Hp), forallb_replicate_zero. }
  split_and!; [by eapply encode_record_length|done|by apply bytes_Ok|].
  exists (length (mjoin parts)). split_and!; [done|by rewrite drop_app_length|].
  intros Hwf. destruct (mapM_encode_canonical record parts Hwf Hp) as [Hp' Hsup].
  apply (decode_loop_encode_record _ parts); [done|done|].
  rewrite <- Hr. apply encode_record_depends. by rewrite Hp, Hp'.
Qed.

Lemma encode_record_bytes_witness :
  Py.bytes ([72; 0; 0; 0; 0; 0; 0; 0; 42] ++ replicate 247 0)
  = Ok ([72; 0; 0; 0; 0; 0; 0; 0; 42] ++ replicate 247 0).
Proof.
  refine (proj1 (proj2 (proj2 (encode_record_bytes [PyInt 42] _ _)))).
  left. vm_compute. reflexivity.
Defined.

(** X16. The room in a record.  A row of supported values encodes exactly
    when its encoded size, 9 bytes for a number and 1 + the UTF-8 length for
    a string, is at most 256; so a row of numbers encodes exactly when it
    has at most 28 of them. *)
Theorem encode_record_capacity (record : list pyval) :
  Forall (λ v, supported v = true) record →
  ((∃ r, encode_record record = Ok r) ↔ (row_size record ≤ 256)%nat)
  ∧ (encode_record record = Raise ValueError_too_long ↔ (256 < row_size record)%nat)
  ∧ (Forall (λ v, match v with PyInt _ | PyFloat _ => True | _ => False end) record →
     row_size record = (9 * length record)%nat
     ∧ ((∃ r, encode_record record = Ok r) ↔ (length record ≤ 28)%nat))
  ∧ U8Encoder.encode_record record = encode_record record.
Proof.
  intros Hsup. destruct (supported_mapM record Hsup) as (parts & Hp & Hlen).
  assert ((∃ r, encode_record record = Ok r) ↔ (row_size record ≤ 256)%nat) as Hfit.
  { split.
    - intros [r Hr]. destruct (decide (row_size record ≤ 256)%nat) as [|Hgt]; [done|].
      by rewrite (encode_record_too_long _ parts) in Hr by (done || lia).
    - intros Hle. eexists. apply (encode_record_Ok _ parts); [done|lia]. }
  split_and!; [done| | |done].
  - split.
    + intros Hr. destruct (decide (row_size record ≤ 256)%nat) as [Hle|]; [|lia].
      by rewrite (encode_record_Ok _ parts) in Hr by (done || lia).
    + intros Hgt. apply (encode_record_too_long _ parts); [done|lia].
  - intros Hnum.
    assert (row_size record = (9 * length record)%nat) as Hsize.
    { clear -Hnum. unfold row_size. induction Hnum as [|v rest Hv _ IH]; [done|].
      rewrite fmap_cons. cbn [sum_list length]. rewrite IH.
      unfold id. destruct v; try done; cbn [encoded_size]; lia. }
    split; [done|]. rewrite Hfit, Hsize. lia.
Qed.

Lemma encode_record_capacity_witness :
  (∃ r, encode_record (replicate 28 (PyFloat 5)) = Ok r)
  ∧ encode_record (replicate 29 (PyInt 5)) = Raise ValueError_too_long.
Proof.
  split.
  - destruct (encode_record_capacity (replicate 28 (PyFloat 5))) as (_ & _ & Hnum & _).
    + apply Forall_replicate. reflexivity.
    + apply Hnum; [by apply Forall_replicate|]. rewrite length_replicate. lia.
  - destruct (encode_record_capacity (replicate 29 (PyInt 5))) as (_ & Hlong & _).
    + apply Forall_replicate. reflexivity.
    + apply Hlong. vm_compute. lia.
Defined.
